(** * dz_latency: a shallow embedding of [dz_latency.py]

    The script pings every peer IP of the DoubleZero interface, resolves the
    peer's identity in a [solana gossip] snapshot, classifies it against the
    active validator set and writes one CSV row per IP.

    Conventions of the embedding.
    - Python [str] is [string]: a character of the model is a code point
      below 256.  The texts handled here (IP addresses, public keys, tool
      output) are ASCII; text with a character from 256 on is outside the
      model.
    - JSON documents are taken at the shape the tools emit: an object whose
      fields are strings is a [gmap string string], the validator entries sit
      in a list under ["validators"], a validator-info entry has a nested
      [info] object.  [d.get(k)] is the lookup [d !! k], with [None] for an
      absent key.  Documents of another shape are outside the model.
    - A Python exception is a value of [exn]; a call that may raise returns a
      [result].  [try]/[except] blocks are written out as matches on it.
    - [print] calls write to the console only and are left out. *)

From Stdlib Require Import ZArith Ascii String List Bool Lia.
From stdpp Require Import base option list gmap strings.

Local Open Scope string_scope.

(** ** Python values used by the script *)

(** The exception classes the script's handlers tell apart.  All of them are
    subclasses of [Exception]. *)
Inductive exn : Type :=
| TimeoutExpired      (* subprocess.TimeoutExpired *)
| FileNotFoundError   (* the executable is not on PATH, or a file is missing *)
| JSONDecodeError     (* json.JSONDecodeError *)
| RequestException    (* requests.exceptions.RequestException, HTTPError included *)
| OSError             (* any other OSError; IOError is the same class *)
| OtherException.     (* any other subclass of Exception *)

(** The outcome of a call that may raise. *)
Inductive result (A : Type) : Type :=
| Returned (a : A)
| Raised (e : exn).
Arguments Returned {A} a.
Arguments Raised {A} e.

(** Sequencing: an exception raised by the first call ends the block. *)
#[global] Instance result_bind : MBind result := λ A B f r,
  match r with
  | Returned a => f a
  | Raised e => Raised e
  end.

(** [try: body except ...: handler]: [handler e] is the clause that catches
    [e], or [Raised e] when no clause does. *)
Definition try_except {A : Type}
    (body : result A) (handler : exn → result A) : result A :=
  match body with
  | Returned a => Returned a
  | Raised e => handler e
  end.

(** Truth value of [d.get(k)] in a condition: [None] and the empty string are
    false, every other string is true. *)
Definition truthy (v : option string) : bool :=
  match v with
  | None => false
  | Some EmptyString => false
  | Some (String _ _) => true
  end.

(** [s.replace(',', '')]: every comma removed. *)
Fixpoint strip_commas (s : string) : string :=
  match s with
  | EmptyString => EmptyString
  | String c rest =>
      if Ascii.eqb c ","%char then strip_commas rest
      else String c (strip_commas rest)
  end.

(** [c in s] for a character. *)
Fixpoint has_char (c : ascii) (s : string) : bool :=
  match s with
  | EmptyString => false
  | String c' rest => Ascii.eqb c c' || has_char c rest
  end.

(** ** Gossip identity lookup *)

(** [get_identity_from_gossip] (lines 101-127).  The loop returns at the first
    entry whose [ipAddress] equals the query and whose [identityPubkey] is
    true in a condition; an entry that matches the IP without such an identity
    does not end the loop.  On a list of objects with string fields nothing in
    the loop raises, so the handlers of lines 123-127, which return [None],
    are never entered. *)
Fixpoint get_identity_from_gossip
    (ip_address : string) (gossip_data : list (gmap string string))
  : option string :=
  match gossip_data with
  | [] => None
  | entry :: rest =>
      if decide (entry !! "ipAddress" = Some ip_address) then
        let identity_pubkey := entry !! "identityPubkey" in
        if truthy identity_pubkey then identity_pubkey
        else get_identity_from_gossip ip_address rest
      else get_identity_from_gossip ip_address rest
  end.

(** ** Classification *)

(** Lines 275-289 of the loop of [main]: the lookup and the assignments that
    follow it, as the pair [(status, name)] they leave. *)
Definition classify
    (ip : string) (gossip_data : list (gmap string string))
    (active_validator_identities : gset string)
    (validator_info : gmap string string) : string * string :=
  let identity_key := get_identity_from_gossip ip gossip_data in
  let status := "gossip_not_found" in
  let name := "" in
  if truthy identity_key then
    match identity_key with
    | Some key =>
        if decide (key ∈ active_validator_identities) then
          ("validator", default "Unknown" (validator_info !! key))
        else ("gossip", name)
    | None => (status, name)
    end
  else (status, name).

(** ** External commands *)

(** The object [subprocess.run(..., capture_output=True, text=True)] returns.
    [stdout] is the captured text where the script reads it as text
    ([ping_ip], [get_ips_from_rt]).  For the three [solana ... --output=json]
    commands the script only ever passes it to [json.loads]; there [stdout] is
    what [json.loads(result.stdout)] yields: [Some] document, or [None] when
    it raises [JSONDecodeError]. *)
Record CompletedProcess (A : Type) : Type := {
  returncode : Z;
  stdout : A;
  stderr : string
}.
Arguments returncode {A} _.
Arguments stdout {A} _.
Arguments stderr {A} _.

(** ** Latency probe *)

(** Membership in the character class [[\d.]]. *)
Definition is_num_char (c : ascii) : bool :=
  let n := nat_of_ascii c in
  ((48 <=? n)%nat && (n <=? 57)%nat) || Ascii.eqb c "."%char.

(** The longest prefix of [s] inside [[\d.]], and what follows it. *)
Fixpoint span_num (s : string) : string * string :=
  match s with
  | EmptyString => (EmptyString, EmptyString)
  | String c rest =>
      if is_num_char c then
        let '(run, tail) := span_num rest in (String c run, tail)
      else (EmptyString, s)
  end.

(** [[\d.]+] at the head of [s].  In the pattern every such group is followed
    by a literal [/] or space, which is outside the class, so the greedy group
    can only end where the run of class characters ends. *)
Definition num_group (s : string) : option (string * string) :=
  match span_num s with
  | (EmptyString, _) => None
  | (run, tail) => Some (run, tail)
  end.

(** A literal at the head of [s]: what follows it. *)
Fixpoint literal (lit s : string) : option string :=
  match lit, s with
  | EmptyString, _ => Some s
  | String a lit', String b s' =>
      if Ascii.eqb a b then literal lit' s' else None
  | String _ _, EmptyString => None
  end.

(** [latency_pattern] of line 22 matched at the head of [s]; the result is
    [match.group(1)], the second number of the summary line. *)
Definition latency_pattern_at (s : string) : option string :=
  s0 ← literal "min/avg/max/mdev = " s;
  '(_, s1) ← num_group s0;
  s2 ← literal "/" s1;
  '(avg, s3) ← num_group s2;
  s4 ← literal "/" s3;
  '(_, s5) ← num_group s4;
  s6 ← literal "/" s5;
  '(_, s7) ← num_group s6;
  _ ← literal " ms" s7;
  Some avg.

(** [re.search(latency_pattern, text)]: the leftmost position where the
    pattern matches. *)
Fixpoint re_search_latency (text : string) : option string :=
  match latency_pattern_at text with
  | Some latency => Some latency
  | None =>
      match text with
      | EmptyString => None
      | String _ rest => re_search_latency rest
      end
  end.

(** [ping_ip] (lines 10-43).  [run ip_address] is the outcome of
    [subprocess.run] on the [ping] command of line 21. *)
Definition ping_ip
    (run : string → result (CompletedProcess string)) (ip_address : string)
  : result string :=
  try_except
    (result ← run ip_address;
     if (returncode result =? 0)%Z then
       match re_search_latency (stdout result) with
       | Some latency => Returned latency
       | None => Returned "unreachable"
       end
     else Returned "unreachable")
    (λ e, match e with
          | TimeoutExpired => Returned "unreachable"
          | _ => Returned "unreachable"
          end).

(** ** Routing table *)

(** [c.isspace()] for a code point below 256: tab to carriage return (9-13),
    the four separators 28-31, space (32), next line (133, U+0085) and
    no-break space (160, U+00A0). *)
Definition is_space (c : ascii) : bool :=
  let n := nat_of_ascii c in
  ((9 <=? n)%nat && (n <=? 13)%nat) || ((28 <=? n)%nat && (n <=? 32)%nat)
  || (n =? 133)%nat || (n =? 160)%nat.

Fixpoint lstrip (s : string) : string :=
  match s with
  | EmptyString => EmptyString
  | String c rest => if is_space c then lstrip rest else s
  end.

Fixpoint rstrip (s : string) : string :=
  match s with
  | EmptyString => EmptyString
  | String c rest =>
      match rstrip rest with
      | EmptyString => if is_space c then EmptyString else String c EmptyString
      | kept => String c kept
      end
  end.

(** [s.strip()]. *)
Definition strip (s : string) : string := rstrip (lstrip s).

(** [s.split('\n')]: the pieces between line feeds, empty pieces kept. *)
Fixpoint split_lines (s : string) : list string :=
  match s with
  | EmptyString => [EmptyString]
  | String c rest =>
      if Ascii.eqb c (ascii_of_nat 10) then EmptyString :: split_lines rest
      else match split_lines rest with
           | piece :: pieces => String c piece :: pieces
           | [] => [String c EmptyString]
           end
  end.

(** [get_ips_from_rt] (lines 46-72).  [run] is the outcome of the
    [ip route show dev doublezero0 | awk '{print $1}'] shell command. *)
Definition get_ips_from_rt (run : result (CompletedProcess string))
  : result (list string) :=
  try_except
    (result ← run;
     if negb (returncode result =? 0)%Z then Returned []
     else
       let ips := split_lines (strip (stdout result)) in
       Returned (filter (λ ip, ip ≠ EmptyString) ips))
    (λ e, match e with
          | TimeoutExpired => Returned []
          | _ => Returned []
          end).

(** ** Gossip snapshot and validator registry loads *)

(** [load_gossip_data] (lines 74-99).  [None] is Python's [None].  The
    function has no catch-all clause: any other exception leaves it. *)
Definition load_gossip_data
    (run : result (CompletedProcess (option (list (gmap string string)))))
  : result (option (list (gmap string string))) :=
  try_except
    (result ← run;
     if negb (returncode result =? 0)%Z then Returned None
     else match stdout result with
          | Some data => Returned (Some data)
          | None => Raised JSONDecodeError
          end)
    (λ e, match e with
          | FileNotFoundError => Returned None
          | TimeoutExpired => Returned None
          | JSONDecodeError => Returned None
          | _ => Raised e
          end).

(** [load_active_validators] (lines 129-161).  The document is an object
    whose ["validators"] key holds a list of entries. *)
Definition load_active_validators
    (run : result (CompletedProcess
                     (option (gmap string (list (gmap string string))))))
  : result (gset string) :=
  try_except
    (result ← run;
     if negb (returncode result =? 0)%Z then Returned ∅
     else match stdout result with
          | None => Raised JSONDecodeError
          | Some data =>
              let validator_list := default [] (data !! "validators") in
              let active_identities : gset string :=
                list_to_set
                  (omap (λ v : gmap string string,
                           if truthy (v !! "identityPubkey")
                           then v !! "identityPubkey" else None)
                        validator_list) in
              Returned active_identities
          end)
    (λ e, match e with
          | FileNotFoundError => Returned ∅
          | JSONDecodeError => Returned ∅
          | TimeoutExpired => Returned ∅
          | _ => Returned ∅
          end).

(** An entry of [solana validator-info get]: an identity and a nested [info]
    object. *)
Module ValidatorInfo.
Record entry : Type := {
  identityPubkey : option string;
  info : option (gmap string string)
}.
End ValidatorInfo.

(** [v.get("info", {}).get("name")]. *)
Definition info_name (v : ValidatorInfo.entry) : option string :=
  default ∅ (ValidatorInfo.info v) !! "name".

(** One step of the dict comprehension of lines 180-184: a later entry with
    the same identity replaces an earlier one. *)
Definition add_validator_detail
    (validator_map : gmap string string) (v : ValidatorInfo.entry)
  : gmap string string :=
  if truthy (ValidatorInfo.identityPubkey v) && truthy (info_name v) then
    match ValidatorInfo.identityPubkey v, info_name v with
    | Some key, Some name => <[key := name]> validator_map
    | _, _ => validator_map
    end
  else validator_map.

(** [load_validator_details] (lines 163-198). *)
Definition load_validator_details
    (run : result (CompletedProcess (option (list ValidatorInfo.entry))))
  : result (gmap string string) :=
  try_except
    (result ← run;
     if negb (returncode result =? 0)%Z then Returned ∅
     else match stdout result with
          | None => Raised JSONDecodeError
          | Some validators_data =>
              Returned (foldl add_validator_detail ∅ validators_data)
          end)
    (λ e, match e with
          | FileNotFoundError => Returned ∅
          | JSONDecodeError => Returned ∅
          | TimeoutExpired => Returned ∅
          | _ => Returned ∅
          end).

(** ** Geolocation *)

(** The object [requests.get] returns: the status code, and the value of
    [response.json()], [None] when the body is not JSON. *)
Record Response : Type := {
  status_code : Z;
  json : option (gmap string string)
}.

(** [response.raise_for_status()]: an [HTTPError], a [RequestException],
    for a 4xx or 5xx status. *)
Definition raise_for_status (response : Response) : result unit :=
  if (400 <=? status_code response)%Z && (status_code response <? 600)%Z
  then Raised RequestException
  else Returned ().

(** [get_ip_location] (lines 200-228).  [get ip_address] is the outcome of
    [requests.get] on the ip-api.com URL of line 211. *)
Definition get_ip_location
    (get : string → result Response) (ip_address : string)
  : result (string * string) :=
  try_except
    (response ← get ip_address;
     _ ← raise_for_status response;
     match json response with
     | None => Raised JSONDecodeError
     | Some data =>
         if decide (data !! "status" = Some "success") then
           let city := default "Unknown" (data !! "city") in
           let country := default "Unknown" (data !! "country") in
           Returned (city, country)
         else Returned ("Unknown", "Unknown")
     end)
    (λ e, match e with
          | RequestException => Returned ("Unknown", "Unknown")
          | _ => Returned ("Unknown", "Unknown")
          end).

(** ** The report file *)

Definition OUTPUT_FILE : string := "dz_latency_result.csv".
Definition DZ_INTERFACE : string := "doublezero0".

(** The quote character of the [csv] module's default dialect. *)
Definition quotechar : ascii := ascii_of_nat 34.

(** A field is quoted when it holds the delimiter, the quote character, or a
    character of the line terminator. *)
Definition needs_quotes (field : string) : bool :=
  has_char ","%char field || has_char quotechar field
  || has_char (ascii_of_nat 13) field || has_char (ascii_of_nat 10) field.

(** Inside a quoted field every quote character is doubled. *)
Fixpoint double_quotes (field : string) : string :=
  match field with
  | EmptyString => EmptyString
  | String c rest =>
      if Ascii.eqb c quotechar then String c (String c (double_quotes rest))
      else String c (double_quotes rest)
  end.

Definition csv_field (field : string) : string :=
  if needs_quotes field
  then String quotechar (double_quotes field +:+ String quotechar EmptyString)
  else field.

Fixpoint join_fields (fields : list string) : string :=
  match fields with
  | [] => EmptyString
  | [field] => csv_field field
  | field :: rest => csv_field field +:+ "," +:+ join_fields rest
  end.

(** The text [csv.writer(f).writerow(row)] writes for a row of two or more
    strings: the fields joined by commas and ended by CR LF. *)
Definition writerow (row : list string) : string :=
  join_fields row +:+ String (ascii_of_nat 13) (String (ascii_of_nat 10) EmptyString).

(** The text of a file written row by row. *)
Definition csv_text (rows : list (list string)) : string :=
  foldr (λ row text, writerow row +:+ text) EmptyString rows.

(** ** The run *)

(** The parsed command line: [--ip_list PATH] and [--no_geo]. *)
Record Args : Type := {
  ip_list : option string;
  no_geo : bool
}.

(** What the run observes of the outside: the lines read from the
    [--ip_list] file (or the exception [open] raises), the outcomes of the
    [ip route] command and of the three [solana] commands, the answers of
    [ping] and of ip-api.com to the calls of the [k]-th iteration of the loop,
    and whether [OUTPUT_FILE] can be opened and written. *)
Record World : Type := {
  ip_list_file : result (list string);
  ip_route : result (CompletedProcess string);
  solana_validators :
    result (CompletedProcess (option (gmap string (list (gmap string string)))));
  solana_validator_info :
    result (CompletedProcess (option (list ValidatorInfo.entry)));
  solana_gossip :
    result (CompletedProcess (option (list (gmap string string))));
  ping : nat → string → result (CompletedProcess string);
  ip_api : nat → string → result Response;
  output_file : result unit
}.

(** How a run that raises nothing ends.  [NotSaved] is the [IOError] clause
    of line 309, entered when the [open] of line 299 or a write fails: the
    run made no complete report ([OUTPUT_FILE] is absent, as it was before,
    or cut short). *)
Inductive outcome : Type :=
| Exited                               (* one of the returns of lines 253-267 *)
| Saved (rows : list (list string))    (* OUTPUT_FILE holds these rows *)
| NotSaved.                            (* the IOError clause of line 309 *)

(** Lines 245-249: the lines of the [--ip_list] file, stripped, blank ones
    dropped; or the routing table.  [open] is outside any [try]. *)
Definition resolve_ips (args : Args) (w : World) : result (list string) :=
  if truthy (ip_list args) then
    lines ← ip_list_file w;
    Returned (filter (λ line, line ≠ EmptyString)
                     (strip <$> (lines : list string)))
  else get_ips_from_rt (ip_route w).

(** The header written at lines 302-305. *)
Definition header (args : Args) : list string :=
  if no_geo args
  then ["IP"; "Status"; "Validator Name"; "Latency"; "City"; "Country"]
  else ["IP"; "Status"; "Validator Name"; "Latency"].

(** One iteration of the loop, lines 271-295: the row appended to [results]. *)
Definition check_ip (args : Args) (w : World)
    (active_validator_identities : gset string)
    (validator_info : gmap string string)
    (gossip_data : list (gmap string string))
    (k : nat) (ip : string) : result (list string) :=
  latency ← ping_ip (ping w k) ip;
  let '(status, name) :=
    classify ip gossip_data active_validator_identities validator_info in
  if no_geo args then Returned [ip; status; name; latency]
  else
    '(city, country) ← get_ip_location (ip_api w k) ip;
    Returned [ip; status; strip_commas name; latency; city; country].

(** The loop of lines 271-295 from iteration [k] on. *)
Fixpoint check_ips (args : Args) (w : World)
    (active_validator_identities : gset string)
    (validator_info : gmap string string)
    (gossip_data : list (gmap string string))
    (k : nat) (ip_addresses : list string) : result (list (list string)) :=
  match ip_addresses with
  | [] => Returned []
  | ip :: rest =>
      row ← check_ip args w active_validator_identities validator_info
                     gossip_data k ip;
      rows ← check_ips args w active_validator_identities validator_info
                       gossip_data (S k) rest;
      Returned (row :: rows)
  end.

(** [IOError] is [OSError]; [FileNotFoundError] is one of its subclasses. *)
Definition is_IOError (e : exn) : bool :=
  match e with
  | OSError | FileNotFoundError => true
  | _ => false
  end.

(** Lines 298-310: the header, then the rows. *)
Definition save_results (args : Args) (w : World)
    (results : list (list string)) : result outcome :=
  try_except
    (_ ← output_file w;
     Returned (Saved (header args :: results)))
    (λ e, if is_IOError e then Returned NotSaved else Raised e).

(** [main] (lines 231-310). *)
Definition main (args : Args) (w : World) : result outcome :=
  ip_addresses ← resolve_ips args w;
  active_validator_identities ← load_active_validators (solana_validators w);
  validator_info ← load_validator_details (solana_validator_info w);
  gossip_data ← load_gossip_data (solana_gossip w);
  if decide (ip_addresses = []) then Returned Exited
  else if decide (active_validator_identities = ∅) then Returned Exited
  else if decide (validator_info = ∅) then Returned Exited
  else
    match gossip_data with
    | None | Some [] => Returned Exited
    | Some gossip =>
        results ← check_ips args w active_validator_identities validator_info
                            gossip 0 ip_addresses;
        save_results args w results
    end.

(** * Vocabulary of the statements, and sample data *)

(** ** Gossip lookup *)

(** An entry ends the scan when its IP is the query and it carries an
    identity that is true in a condition. *)
Definition usable (ip_address : string) (entry : gmap string string) : Prop :=
  entry !! "ipAddress" = Some ip_address
  ∧ truthy (entry !! "identityPubkey") = true.

#[global] Instance usable_dec ip_address entry : Decision (usable ip_address entry).
Proof. unfold usable. apply _. Defined.

(** The lookup as the specification words it: the identity field of the first
    record whose IP field is the query, whatever that field holds. *)
Definition first_ip_match
    (ip_address : string) (gossip_data : list (gmap string string))
  : option (nat * gmap string string) :=
  list_find (λ entry, entry !! "ipAddress" = Some ip_address) gossip_data.

Definition identity_of_first_ip_match
    (ip_address : string) (gossip_data : list (gmap string string))
  : option string :=
  '(_, entry) ← first_ip_match ip_address gossip_data;
  entry !! "identityPubkey".

(** A snapshot that lists one address twice, first without an identity. *)
Definition gossip_twice : list (gmap string string) :=
  [ {[ "ipAddress" := "10.0.0.5" ]};
    {[ "ipAddress" := "10.0.0.5"; "identityPubkey" := "ABC" ]} ].

(** An entry that names the queried address without an identity. *)
Definition unidentified (ip_address : string) (entry : gmap string string)
  : Prop :=
  entry !! "ipAddress" = Some ip_address
  ∧ (entry !! "identityPubkey" = None
     ∨ entry !! "identityPubkey" = Some EmptyString).

(** ** Latency probe *)

(** Every character of [s] is in the class [[\d.]]. *)
Fixpoint all_num (s : string) : bool :=
  match s with
  | EmptyString => true
  | String c rest => is_num_char c && all_num rest
  end.

(** A string the group [[\d.]+] can match in full. *)
Definition is_run (s : string) : Prop := s ≠ EmptyString ∧ all_num s = true.

(** The texts [latency_pattern] matches in full, with the four numbers. *)
Definition summary (min avg max mdev : string) : string :=
  "min/avg/max/mdev = " +:+ min +:+ "/" +:+ avg +:+ "/" +:+ max +:+ "/"
  +:+ mdev +:+ " ms".

(** The pattern matches at the head of [s] with [avg] as its first group. *)
Definition matches_at (s avg : string) : Prop :=
  ∃ min max mdev tail,
    is_run min ∧ is_run avg ∧ is_run max ∧ is_run mdev
    ∧ s = summary min avg max mdev +:+ tail.

Definition LF : string := String (ascii_of_nat 10) EmptyString.

Definition CRLF : string :=
  String (ascii_of_nat 13) (String (ascii_of_nat 10) EmptyString).

(** The summary line [ping] prints last, and the two lines it closes with. *)
Definition rtt_line : string :=
  "rtt min/avg/max/mdev = 0.045/0.052/0.061/0.007 ms".

Definition sample_ping_output : string :=
  "3 packets transmitted, 3 received, 0% packet loss, time 402ms" +:+ LF
  +:+ rtt_line.

(** A [ping] that exits with status 0 after printing [out]. *)
Definition ping_answers (out : string)
  : string → result (CompletedProcess string) :=
  λ _, Returned {| returncode := 0; stdout := out; stderr := "" |}.

(** ** Geolocation *)

(** A body as ip-api.com sends it for a private address. *)
Definition geo_fail_body : gmap string string :=
  {[ "status" := "fail"; "message" := "private range" ]}.

(** ** Registry loads *)

(** A load fails when the command raises, exits with a non-zero status, or
    prints what [json.loads] rejects. *)
Definition load_failed {A : Type}
    (run : result (CompletedProcess (option A))) : Prop :=
  match run with
  | Raised _ => True
  | Returned result => returncode result ≠ 0%Z ∨ stdout result = None
  end.

(** Successful loads that find no entry: [{"validators": []}] and [[]]. *)
Definition no_validators
  : result (CompletedProcess (option (gmap string (list (gmap string string))))) :=
  Returned {| returncode := 0; stdout := Some {[ "validators" := [] ]};
              stderr := "" |}.

Definition no_validator_details
  : result (CompletedProcess (option (list ValidatorInfo.entry))) :=
  Returned {| returncode := 0; stdout := Some []; stderr := "" |}.

(** What an entry of [solana validator-info get] adds to the name map: its
    identity and name when the condition of line 183 holds. *)
Definition detail_of (v : ValidatorInfo.entry) : option (string * string) :=
  if truthy (ValidatorInfo.identityPubkey v) && truthy (info_name v) then
    match ValidatorInfo.identityPubkey v, info_name v with
    | Some key, Some name => Some (key, name)
    | _, _ => None
    end
  else None.

(** ** The run *)

(** The setup of a run went through: a non-empty IP list and three non-empty
    collections. *)
Definition setup_ok (args : Args) (w : World) : Prop :=
  ∃ ips active names gossip,
    resolve_ips args w = Returned ips ∧ ips ≠ []
    ∧ load_active_validators (solana_validators w) = Returned active
    ∧ active ≠ ∅
    ∧ load_validator_details (solana_validator_info w) = Returned names
    ∧ names ≠ ∅
    ∧ load_gossip_data (solana_gossip w) = Returned (Some gossip)
    ∧ gossip ≠ [].

(** The same setup under other probe answers and another output file. *)
Definition with_probes (w : World)
    (ping' : nat → string → result (CompletedProcess string))
    (ip_api' : nat → string → result Response)
    (output_file' : result unit) : World :=
  {| ip_list_file := ip_list_file w;
     ip_route := ip_route w;
     solana_validators := solana_validators w;
     solana_validator_info := solana_validator_info w;
     solana_gossip := solana_gossip w;
     ping := ping';
     ip_api := ip_api';
     output_file := output_file' |}.

(** Two peers on the interface: one an active validator whose display name
    holds a comma, one unknown to gossip and unreachable. *)
Definition sample_world : World :=
  {| ip_list_file := Raised FileNotFoundError;
     ip_route :=
       Returned {| returncode := 0;
                   stdout := "10.0.0.5" +:+ LF +:+ "10.0.0.9" +:+ LF;
                   stderr := "" |};
     solana_validators :=
       Returned {| returncode := 0;
                   stdout := Some {[ "validators" :=
                                       [ {[ "identityPubkey" := "ABC" ]} ] ]};
                   stderr := "" |};
     solana_validator_info :=
       Returned {| returncode := 0;
                   stdout :=
                     Some [ {| ValidatorInfo.identityPubkey := Some "ABC";
                               ValidatorInfo.info :=
                                 Some {[ "name" := "Node, One" ]} |} ];
                   stderr := "" |};
     solana_gossip :=
       Returned {| returncode := 0;
                   stdout := Some [ {[ "ipAddress" := "10.0.0.5";
                                       "identityPubkey" := "ABC" ]} ];
                   stderr := "" |};
     ping := λ _ ip,
       if String.eqb ip "10.0.0.5"
       then Returned {| returncode := 0; stdout := rtt_line; stderr := "" |}
       else Raised TimeoutExpired;
     ip_api := λ _ ip,
       if String.eqb ip "10.0.0.5"
       then Returned {| status_code := 200;
                        json := Some {[ "status" := "success";
                                        "city" := "Frankfurt";
                                        "country" := "Germany" ]} |}
       else Returned {| status_code := 200; json := Some geo_fail_body |};
     output_file := Returned () |}.

Definition with_geo : Args := {| ip_list := None; no_geo := false |}.
Definition without_geo : Args := {| ip_list := None; no_geo := true |}.

(** The sample with a registry that lists no validator at all. *)
Definition no_validators_world : World :=
  {| ip_list_file := ip_list_file sample_world;
     ip_route := ip_route sample_world;
     solana_validators := no_validators;
     solana_validator_info := solana_validator_info sample_world;
     solana_gossip := solana_gossip sample_world;
     ping := ping sample_world;
     ip_api := ip_api sample_world;
     output_file := output_file sample_world |}.

(** The sample in a directory that cannot be written. *)
Definition read_only_world : World :=
  with_probes sample_world (ping sample_world) (ip_api sample_world)
    (Raised OSError).

(** ** Input of the run *)

(** Every character of [s] is white space: a blank line. *)
Fixpoint all_space (s : string) : bool :=
  match s with
  | EmptyString => true
  | String c rest => is_space c && all_space rest
  end.

(** [s] neither starts nor ends with a white space character. *)
Definition no_space_at_ends (s : string) : Prop :=
  (∀ c rest, s = String c rest → is_space c = false)
  ∧ (∀ front c, s = front +:+ String c EmptyString → is_space c = false).

(** [line] is [ip] with white space only before and after it. *)
Definition padded (line ip : string) : Prop :=
  ∃ lead trail,
    line = lead +:+ ip +:+ trail
    ∧ all_space lead = true ∧ all_space trail = true.

(** The same world with another answer of the [ip route] command. *)
Definition with_ip_route (w : World)
    (ip_route' : result (CompletedProcess string)) : World :=
  {| ip_list_file := ip_list_file w;
     ip_route := ip_route';
     solana_validators := solana_validators w;
     solana_validator_info := solana_validator_info w;
     solana_gossip := solana_gossip w;
     ping := ping w;
     ip_api := ip_api w;
     output_file := output_file w |}.

(** The same world with another [--ip_list] file. *)
Definition with_ip_list_file (w : World)
    (ip_list_file' : result (list string)) : World :=
  {| ip_list_file := ip_list_file';
     ip_route := ip_route w;
     solana_validators := solana_validators w;
     solana_validator_info := solana_validator_info w;
     solana_gossip := solana_gossip w;
     ping := ping w;
     ip_api := ip_api w;
     output_file := output_file w |}.

(** The exceptions [load_gossip_data] has a clause for (lines 91-99). *)
Definition gossip_load_catches (e : exn) : bool :=
  match e with
  | FileNotFoundError | TimeoutExpired | JSONDecodeError => true
  | _ => false
  end.

(** The same world with another answer of ip-api.com. *)
Definition with_ip_api (w : World)
    (ip_api' : nat → string → result Response) : World :=
  with_probes w (ping w) ip_api' (output_file w).

(** * Properties *)

(** ** Gossip lookup *)

Lemma truthy_Some (v : option string) :
  truthy v = true ↔ ∃ s, v = Some s ∧ s ≠ EmptyString.
Proof.
  split.
  - destruct v as [[|c s]|]; simpl; intros H; try discriminate.
    exists (String c s). split; [reflexivity | discriminate].
  - intros (s & -> & Hs). destruct s; [contradiction | reflexivity].
Qed.

Lemma truthy_false (v : option string) :
  truthy v = false ↔ v = None ∨ v = Some EmptyString.
Proof.
  destruct v as [[|c s]|]; simpl; split; intros H; try discriminate; auto.
  - destruct H as [H|H]; discriminate.
Qed.

Lemma get_identity_cons ip entry rest :
  get_identity_from_gossip ip (entry :: rest) =
    if decide (usable ip entry) then entry !! "identityPubkey"
    else get_identity_from_gossip ip rest.
Proof.
  simpl.
  destruct (decide (usable ip entry)) as [[Hip Hid]|Hn].
  - rewrite decide_True by exact Hip. rewrite Hid. reflexivity.
  - destruct (decide (entry !! "ipAddress" = Some ip)) as [Hip|Hip];
      [|reflexivity].
    destruct (truthy (entry !! "identityPubkey")) eqn:Hid; [|reflexivity].
    exfalso. apply Hn. split; assumption.
Qed.

(** What the lookup returns is never the empty string. *)
Lemma get_identity_truthy ip gossip_data :
  truthy (get_identity_from_gossip ip gossip_data)
  = bool_decide (is_Some (get_identity_from_gossip ip gossip_data)).
Proof.
  induction gossip_data as [|entry rest IH].
  - reflexivity.
  - rewrite get_identity_cons. case_decide as Hu; [|exact IH].
    destruct Hu as [_ Hid]. rewrite Hid.
    apply truthy_Some in Hid as (s & -> & _). reflexivity.
Qed.

(** C1. The classification is the three-way function of the lookup result and
    of membership in the active set: a lookup that finds nothing gives
    [gossip_not_found] and the empty name; an identity in the active set gives
    [validator] and the name map's entry, ["Unknown"] when the map has none;
    any other identity gives [gossip] and the empty name. *)
Theorem classify_three_way
    (ip : string) (gossip_data : list (gmap string string))
    (active : gset string) (names : gmap string string) :
  classify ip gossip_data active names =
    match get_identity_from_gossip ip gossip_data with
    | None => ("gossip_not_found", "")
    | Some identity =>
        if decide (identity ∈ active)
        then ("validator", default "Unknown" (names !! identity))
        else ("gossip", "")
    end.
Proof.
  unfold classify. rewrite get_identity_truthy.
  destruct (get_identity_from_gossip ip gossip_data) as [identity|] eqn:Hid.
  - rewrite bool_decide_eq_true_2 by eauto. reflexivity.
  - reflexivity.
Qed.

(** The three scenarios of the classification. *)
Example classify_scenarios :
  classify "10.0.0.5"
    [ {[ "ipAddress" := "10.0.0.5"; "identityPubkey" := "ABC" ]} ]
    {[ "ABC" ]} {[ "ABC" := "Node1" ]} = ("validator", "Node1")
  ∧ classify "10.0.0.9"
      [ {[ "ipAddress" := "10.0.0.5"; "identityPubkey" := "ABC" ]} ]
      {[ "ABC" ]} {[ "ABC" := "Node1" ]} = ("gossip_not_found", "")
  ∧ classify "10.0.0.5"
      [ {[ "ipAddress" := "10.0.0.5"; "identityPubkey" := "ABC" ]} ]
      {[ "DEF" ]} {[ "ABC" := "Node1" ]} = ("gossip", "")
  ∧ classify "10.0.0.5"
      [ {[ "ipAddress" := "10.0.0.5"; "identityPubkey" := "ABC" ]} ]
      {[ "ABC" ]} {[ "DEF" := "Node2" ]} = ("validator", "Unknown").
Proof. vm_compute. repeat split; reflexivity. Qed.

(** C6, as stated, fails: the first record whose IP is the query is record 0,
    which has no identity, and the lookup answers with record 1's. *)
Lemma lookup_passes_first_ip_match :
  first_ip_match "10.0.0.5" gossip_twice
    = Some (0, {[ "ipAddress" := "10.0.0.5" ]})
  ∧ identity_of_first_ip_match "10.0.0.5" gossip_twice = None
  ∧ get_identity_from_gossip "10.0.0.5" gossip_twice = Some "ABC"
  ∧ get_identity_from_gossip "10.0.0.5" gossip_twice
    ≠ identity_of_first_ip_match "10.0.0.5" gossip_twice.
Proof. vm_compute. repeat split; discriminate. Qed.

Lemma get_identity_list_find ip gossip_data :
  get_identity_from_gossip ip gossip_data =
    '(_, entry) ← list_find (usable ip) gossip_data;
    entry !! "identityPubkey".
Proof.
  induction gossip_data as [|entry rest IH]; [reflexivity|].
  rewrite get_identity_cons. simpl.
  case_decide; [reflexivity|].
  rewrite IH. destruct (list_find (usable ip) rest) as [[i e]|]; reflexivity.
Qed.

(** C6, amended. The lookup scans the snapshot in order and returns the
    identity of the first record whose IP field is exactly the query and whose
    identity is present and not empty: every earlier record differs in its IP
    or lacks an identity.  It finds nothing exactly when the snapshot has no
    such record, so in particular when no record's IP field is the query. *)
Theorem get_identity_first_usable
    (ip : string) (gossip_data : list (gmap string string)) :
  (∀ identity,
     get_identity_from_gossip ip gossip_data = Some identity ↔
     ∃ i entry,
       gossip_data !! i = Some entry
       ∧ entry !! "ipAddress" = Some ip
       ∧ entry !! "identityPubkey" = Some identity
       ∧ identity ≠ EmptyString
       ∧ ∀ j earlier, j < i → gossip_data !! j = Some earlier →
           ¬ usable ip earlier)
  ∧ (get_identity_from_gossip ip gossip_data = None ↔
     ∀ entry, entry ∈ gossip_data → ¬ usable ip entry)
  ∧ ((∀ entry, entry ∈ gossip_data → entry !! "ipAddress" ≠ Some ip) →
     get_identity_from_gossip ip gossip_data = None).
Proof.
  assert (Hnone : get_identity_from_gossip ip gossip_data = None ↔
                  ∀ entry, entry ∈ gossip_data → ¬ usable ip entry).
  { rewrite get_identity_list_find. split.
    - intros H entry Hin Hu.
      destruct (list_find (usable ip) gossip_data) as [[i e]|] eqn:Hf.
      + apply list_find_Some in Hf as (_ & [_ He] & _). simpl in H.
        apply truthy_Some in He as (s & Hs & _). congruence.
      + apply list_find_None in Hf. rewrite Forall_forall in Hf.
        exact (Hf entry Hin Hu).
    - intros H.
      destruct (list_find (usable ip) gossip_data) as [[i e]|] eqn:Hf;
        [|reflexivity].
      apply list_find_Some in Hf as (Hi & Hu & _).
      exfalso. eapply H; [|exact Hu]. eapply list_elem_of_lookup_2, Hi. }
  split; [|split; [exact Hnone|]].
  - intros identity. rewrite get_identity_list_find. split.
    + intros H.
      destruct (list_find (usable ip) gossip_data) as [[i e]|] eqn:Hf;
        [|discriminate].
      simpl in H. apply list_find_Some in Hf as (Hi & [Hip Hid] & Hfirst).
      exists i, e. repeat split; try assumption.
      * intros ->. rewrite H in Hid. discriminate.
      * intros j earlier Hj Hlook. exact (Hfirst j earlier Hlook Hj).
    + intros (i & e & Hi & Hip & Hid & Hne & Hfirst).
      assert (Hf : list_find (usable ip) gossip_data = Some (i, e)).
      { apply list_find_Some. split; [exact Hi|]. split.
        - split; [exact Hip|]. apply truthy_Some. eauto.
        - intros j y Hy Hj. exact (Hfirst j y Hj Hy). }
      rewrite Hf. exact Hid.
  - intros H. apply Hnone. intros entry Hin [Hip _]. exact (H entry Hin Hip).
Qed.

(** [get_identity_first_usable] on [gossip_twice]: record 1 is the first
    usable one; and no record names the address 10.0.0.9. *)
Lemma get_identity_first_usable_witness :
  get_identity_from_gossip "10.0.0.5" gossip_twice = Some "ABC"
  ∧ get_identity_from_gossip "10.0.0.9" gossip_twice = None.
Proof.
  split.
  - apply (proj1 (get_identity_first_usable "10.0.0.5" gossip_twice) "ABC").
    exists 1, {[ "ipAddress" := "10.0.0.5"; "identityPubkey" := "ABC" ]}.
    split; [reflexivity|]. split; [reflexivity|]. split; [reflexivity|].
    split; [discriminate|].
    intros j earlier Hj Hlook [_ Hid].
    destruct j as [|j]; [|lia]. injection Hlook as <-.
    vm_compute in Hid. discriminate.
  - apply (proj2 (proj2 (get_identity_first_usable "10.0.0.9" gossip_twice))).
    intros entry Hin Hip.
    apply elem_of_cons in Hin as [->|Hin];
      [vm_compute in Hip; discriminate|].
    apply elem_of_cons in Hin as [->|Hin];
      [vm_compute in Hip; discriminate|].
    inversion Hin.
Defined.

(** The comparison with the query is plain string equality: a stored address
    that differs by a blank is not found. *)
Example lookup_is_exact :
  get_identity_from_gossip "10.0.0.5"
    [ {[ "ipAddress" := "10.0.0.5 "; "identityPubkey" := "ABC" ]} ] = None
  ∧ get_identity_from_gossip "10.0.0.5"
      [ {[ "ipAddress" := "10.0.0.5"; "identityPubkey" := "ABC" ]} ]
    = Some "ABC".
Proof. vm_compute. split; reflexivity. Qed.

Lemma unidentified_not_usable ip entry :
  unidentified ip entry → ¬ usable ip entry.
Proof.
  intros [_ Hid] [_ Ht]. apply truthy_false in Hid. congruence.
Qed.

Lemma get_identity_app_skip ip skipped rest :
  Forall (λ entry, ¬ usable ip entry) skipped →
  get_identity_from_gossip ip (skipped ++ rest)
  = get_identity_from_gossip ip rest.
Proof.
  induction 1 as [|entry skipped Hn _ IH]; [reflexivity|].
  rewrite <- app_comm_cons, get_identity_cons, decide_False by exact Hn.
  exact IH.
Qed.

(** C10. A record whose IP field is the query but whose identity is absent or
    empty is skipped; the lookup returns the identity of the first matching
    record that has a non-empty one; when every matching record lacks an
    identity it finds nothing. *)
Theorem get_identity_skips_unidentified
    (ip : string) (gossip_data : list (gmap string string)) :
  (∀ entry, unidentified ip entry →
     get_identity_from_gossip ip (entry :: gossip_data)
     = get_identity_from_gossip ip gossip_data)
  ∧ (∀ before entry after identity,
       gossip_data = (before ++ entry :: after)%list →
       Forall (λ e, e !! "ipAddress" = Some ip → unidentified ip e) before →
       entry !! "ipAddress" = Some ip →
       entry !! "identityPubkey" = Some identity →
       identity ≠ EmptyString →
       get_identity_from_gossip ip gossip_data = Some identity)
  ∧ (Forall (λ e, e !! "ipAddress" = Some ip → unidentified ip e) gossip_data →
     get_identity_from_gossip ip gossip_data = None).
Proof.
  assert (Hskip : ∀ l,
    Forall (λ e : gmap string string,
              e !! "ipAddress" = Some ip → unidentified ip e) l →
    Forall (λ e, ¬ usable ip e) l).
  { intros l Hl. eapply Forall_impl; [exact Hl|]. intros e He Hu.
    exact (unidentified_not_usable ip e (He (proj1 Hu)) Hu). }
  repeat split.
  - intros entry Hun. rewrite get_identity_cons.
    rewrite decide_False by exact (unidentified_not_usable _ _ Hun).
    reflexivity.
  - intros before entry after identity -> Hbefore Hip Hid Hne.
    rewrite get_identity_app_skip by exact (Hskip _ Hbefore).
    rewrite get_identity_cons, decide_True; [exact Hid|].
    split; [exact Hip|]. apply truthy_Some. eauto.
  - intros Hall.
    rewrite <- (app_nil_r gossip_data).
    rewrite get_identity_app_skip by exact (Hskip _ Hall). reflexivity.
Qed.

(** The three parts of [get_identity_skips_unidentified] on [gossip_twice]
    and on a snapshot whose only matching record has an empty identity. *)
Lemma get_identity_skips_unidentified_witness :
  get_identity_from_gossip "10.0.0.5" gossip_twice = Some "ABC"
  ∧ get_identity_from_gossip "10.0.0.5"
      ({[ "ipAddress" := "10.0.0.5"; "identityPubkey" := "" ]} :: gossip_twice)
    = get_identity_from_gossip "10.0.0.5" gossip_twice
  ∧ get_identity_from_gossip "10.0.0.5"
      [ {[ "ipAddress" := "10.0.0.5"; "identityPubkey" := "" ]};
        {[ "ipAddress" := "10.0.0.9"; "identityPubkey" := "XYZ" ]} ] = None.
Proof.
  split; [|split].
  - apply (proj1 (proj2 (get_identity_skips_unidentified "10.0.0.5" gossip_twice))
             [ {[ "ipAddress" := "10.0.0.5" ]} ]
             {[ "ipAddress" := "10.0.0.5"; "identityPubkey" := "ABC" ]}
             [] "ABC").
    + reflexivity.
    + constructor; [|constructor]. intros _. split; [|left]; reflexivity.
    + reflexivity.
    + reflexivity.
    + discriminate.
  - apply (proj1 (get_identity_skips_unidentified "10.0.0.5" gossip_twice)).
    split; [|right]; reflexivity.
  - apply (proj2 (proj2 (get_identity_skips_unidentified "10.0.0.5" _))).
    constructor; [|constructor; [|constructor]].
    + intros _. split; [|right]; reflexivity.
    + intros H. vm_compute in H. discriminate.
Defined.

(** ** Latency probe *)

Lemma app_String a s t : String a s +:+ t = String a (s +:+ t).
Proof. reflexivity. Qed.

Lemma app_empty t : EmptyString +:+ t = t.
Proof. reflexivity. Qed.

Lemma literal_Some lit s tail : literal lit s = Some tail ↔ s = lit +:+ tail.
Proof.
  revert s. induction lit as [|a lit IH]; intros s.
  - rewrite app_empty. destruct s; simpl; split; congruence.
  - rewrite app_String. destruct s as [|b s]; simpl.
    + split; discriminate.
    + destruct (Ascii.eqb_spec a b) as [->|Hab].
      * rewrite IH. split; congruence.
      * split; [discriminate|congruence].
Qed.

Lemma span_num_sound s run tail :
  span_num s = (run, tail) →
  s = run +:+ tail ∧ all_num run = true.
Proof.
  revert run tail. induction s as [|c s IH]; intros run tail; simpl.
  - intros [= <- <-]. split; reflexivity.
  - destruct (is_num_char c) eqn:Hc.
    + destruct (span_num s) as [run' tail'] eqn:Hs. intros [= <- <-].
      destruct (IH run' tail' eq_refl) as [-> Hrun].
      rewrite app_String. simpl. rewrite Hc, Hrun. split; reflexivity.
    + intros [= <- <-]. split; reflexivity.
Qed.

Lemma span_num_stop run c rest :
  all_num run = true → is_num_char c = false →
  span_num (run +:+ String c rest) = (run, String c rest).
Proof.
  intros Hrun Hc. induction run as [|a run IH].
  - rewrite app_empty. simpl. rewrite Hc. reflexivity.
  - simpl in Hrun. apply andb_true_iff in Hrun as [Ha Hrun].
    rewrite app_String. simpl. rewrite Ha, (IH Hrun). reflexivity.
Qed.

Lemma num_group_sound s run tail :
  num_group s = Some (run, tail) → is_run run ∧ s = run +:+ tail.
Proof.
  unfold num_group. destruct (span_num s) as [r t] eqn:Hs.
  apply span_num_sound in Hs as [-> Hall].
  destruct r as [|a r]; [discriminate|]. intros [= <- <-].
  split; [split; [discriminate|exact Hall]|reflexivity].
Qed.

Lemma num_group_stop run c rest :
  is_run run → is_num_char c = false →
  num_group (run +:+ String c rest) = Some (run, String c rest).
Proof.
  intros [Hne Hall] Hc. unfold num_group.
  rewrite (span_num_stop run c rest Hall Hc).
  destruct run; [contradiction|reflexivity].
Qed.

Lemma app_assoc_s (a b c : string) : (a +:+ b) +:+ c = a +:+ (b +:+ c).
Proof. induction a as [|x a IH]; [reflexivity|]. rewrite !app_String, IH. reflexivity. Qed.

Lemma latency_pattern_at_spec s avg :
  latency_pattern_at s = Some avg ↔ matches_at s avg.
Proof.
  unfold latency_pattern_at, matches_at, summary. split.
  - intros H.
    apply bind_Some in H as (s0 & H0 & H).
    apply bind_Some in H as ([min s1] & H1 & H).
    apply bind_Some in H as (s2 & H2 & H).
    apply bind_Some in H as ([avg' s3] & H3 & H).
    apply bind_Some in H as (s4 & H4 & H).
    apply bind_Some in H as ([max s5] & H5 & H).
    apply bind_Some in H as (s6 & H6 & H).
    apply bind_Some in H as ([mdev s7] & H7 & H).
    apply bind_Some in H as (s8 & H8 & H).
    injection H as ->.
    apply literal_Some in H0, H2, H4, H6, H8.
    apply num_group_sound in H1 as [Hmin E1], H3 as [Havg E3],
      H5 as [Hmax E5], H7 as [Hmdev E7].
    exists min, max, mdev, s8. repeat split; try apply Hmin; try apply Havg;
      try apply Hmax; try apply Hmdev.
    subst. rewrite !app_assoc_s. reflexivity.
  - intros (min & max & mdev & tail & Hmin & Havg & Hmax & Hmdev & ->).
    rewrite !app_assoc_s.
    rewrite (proj2 (literal_Some "min/avg/max/mdev = " _ _) eq_refl).
    rewrite !(app_String "/" EmptyString), !app_empty.
    rewrite (app_String " " "ms").
    cbn [mbind option_bind].
    rewrite (num_group_stop min "/" _ Hmin eq_refl). cbn [mbind option_bind].
    rewrite (proj2 (literal_Some "/" (String "/" _) _) eq_refl).
    cbn [mbind option_bind].
    rewrite (num_group_stop avg "/" _ Havg eq_refl). cbn [mbind option_bind].
    rewrite (proj2 (literal_Some "/" (String "/" _) _) eq_refl).
    cbn [mbind option_bind].
    rewrite (num_group_stop max "/" _ Hmax eq_refl). cbn [mbind option_bind].
    rewrite (proj2 (literal_Some "/" (String "/" _) _) eq_refl).
    cbn [mbind option_bind].
    rewrite (num_group_stop mdev " " _ Hmdev eq_refl). cbn [mbind option_bind].
    rewrite (proj2 (literal_Some " ms" (String " " ("ms" +:+ tail)) tail) eq_refl).
    reflexivity.
Qed.

(** [re.search] returns the match that starts leftmost in the text. *)
Lemma re_search_latency_None text :
  re_search_latency text = None ↔
  ∀ before rest, text = before +:+ rest → ∀ avg, ¬ matches_at rest avg.
Proof.
  induction text as [|c text IH]; simpl.
  - destruct (latency_pattern_at EmptyString) as [l|] eqn:Hl.
    + split; [discriminate|]. intros H. exfalso.
      apply (H EmptyString EmptyString eq_refl l), latency_pattern_at_spec, Hl.
    + split; [|reflexivity]. intros _ before rest E avg Hm.
      destruct before; [|discriminate]. rewrite app_empty in E. subst rest.
      apply latency_pattern_at_spec in Hm. congruence.
  - destruct (latency_pattern_at (String c text)) as [l|] eqn:Hl.
    + split; [discriminate|]. intros H. exfalso.
      apply (H EmptyString (String c text) eq_refl l), latency_pattern_at_spec, Hl.
    + rewrite IH. split.
      * intros H before rest E avg Hm. destruct before as [|b before].
        -- rewrite app_empty in E. subst rest.
           apply latency_pattern_at_spec in Hm. congruence.
        -- rewrite app_String in E. injection E as -> E.
           exact (H before rest E avg Hm).
      * intros H before rest E. apply (H (String c before) rest).
        rewrite app_String, E. reflexivity.
Qed.

Lemma re_search_latency_Some text avg :
  re_search_latency text = Some avg ↔
  ∃ before rest,
    text = before +:+ rest ∧ matches_at rest avg
    ∧ ∀ b r, text = b +:+ r → String.length b < String.length before →
        ∀ x, ¬ matches_at r x.
Proof.
  split.
  - revert avg. induction text as [|c text IH]; intros avg; simpl.
    + intros H. vm_compute in H. discriminate.
    + destruct (latency_pattern_at (String c text)) as [l|] eqn:Hl.
      * intros [= ->]. exists EmptyString, (String c text).
        split; [reflexivity|]. split; [apply latency_pattern_at_spec, Hl|].
        intros b r _ Hlt. simpl in Hlt. lia.
      * intros H. destruct (IH avg H) as (before & rest & -> & Hm & Hleft).
        exists (String c before), rest. split; [reflexivity|].
        split; [exact Hm|]. intros b r E Hlt x Hx.
        destruct b as [|b0 b].
        -- rewrite app_empty in E. subst r.
           apply latency_pattern_at_spec in Hx. congruence.
        -- rewrite !app_String in E. injection E as _ E.
           simpl in Hlt. apply (Hleft b r E) with (x := x); [lia|exact Hx].
  - intros (before & rest & E & Hm & Hleft). revert text E Hleft.
    induction before as [|b before IH]; intros text E Hleft.
    + rewrite app_empty in E. subst text.
      apply latency_pattern_at_spec in Hm.
      destruct rest; [vm_compute in Hm; discriminate|].
      simpl. rewrite Hm. reflexivity.
    + rewrite app_String in E. subst text. simpl.
      destruct (latency_pattern_at (String b (before +:+ rest))) as [l|] eqn:Hl.
      * exfalso. apply (Hleft EmptyString (String b (before +:+ rest)) eq_refl)
          with (x := l); [simpl; lia|apply latency_pattern_at_spec, Hl].
      * apply IH; [reflexivity|]. intros b' r E Hlt.
        apply (Hleft (String b b') r); [rewrite app_String, E; reflexivity|].
        simpl. lia.
Qed.

(** The probe never raises. *)
Lemma ping_ip_returns run ip : ∃ latency, ping_ip run ip = Returned latency.
Proof.
  unfold ping_ip, try_except. destruct (run ip) as [result|e]; simpl.
  - destruct (returncode result =? 0)%Z; [|eauto].
    destruct (re_search_latency (stdout result)); eauto.
  - destruct e; eauto.
Qed.

(** C8. The probe returns the first group of the leftmost match of the
    summary pattern, the average, when the command exits with status zero and
    the pattern matches its output; on a non-zero status, on output without a
    match, on a timeout and on any other exception it returns
    ["unreachable"]. *)
Theorem ping_ip_latency_or_unreachable
    (run : string → result (CompletedProcess string)) (ip : string) :
  (∀ result before rest avg,
     run ip = Returned result → returncode result = 0%Z →
     stdout result = before +:+ rest → matches_at rest avg →
     (∀ b r, stdout result = b +:+ r →
             String.length b < String.length before → ∀ x, ¬ matches_at r x) →
     ping_ip run ip = Returned avg)
  ∧ (∀ result, run ip = Returned result → returncode result ≠ 0%Z →
     ping_ip run ip = Returned "unreachable")
  ∧ (∀ result, run ip = Returned result →
     (∀ before rest, stdout result = before +:+ rest →
                     ∀ avg, ¬ matches_at rest avg) →
     ping_ip run ip = Returned "unreachable")
  ∧ (run ip = Raised TimeoutExpired → ping_ip run ip = Returned "unreachable")
  ∧ (∀ e, run ip = Raised e → ping_ip run ip = Returned "unreachable").
Proof.
  unfold ping_ip, try_except. repeat split.
  - intros result before rest avg -> Hrc Hout Hm Hleft. simpl.
    rewrite Hrc. simpl.
    rewrite (proj2 (re_search_latency_Some (stdout result) avg)); [reflexivity|].
    exists before, rest. auto.
  - intros result -> Hrc. simpl.
    destruct (Z.eqb_spec (returncode result) 0); [contradiction|reflexivity].
  - intros result -> Hno. simpl.
    rewrite (proj2 (re_search_latency_None (stdout result)) Hno).
    destruct (returncode result =? 0)%Z; reflexivity.
  - intros ->. reflexivity.
  - intros e ->. destruct e; reflexivity.
Qed.

(** The success case of [ping_ip_latency_or_unreachable] on a summary line,
    and its timeout case. *)
Lemma ping_ip_latency_or_unreachable_witness :
  ping_ip (ping_answers rtt_line) "10.0.0.5" = Returned "0.052"
  ∧ ping_ip (λ _, Raised TimeoutExpired) "10.0.0.5" = Returned "unreachable".
Proof.
  split.
  - apply (proj1 (ping_ip_latency_or_unreachable (ping_answers rtt_line) "10.0.0.5")
             {| returncode := 0; stdout := rtt_line; stderr := "" |}
             "rtt " "min/avg/max/mdev = 0.045/0.052/0.061/0.007 ms" "0.052").
    + reflexivity.
    + reflexivity.
    + reflexivity.
    + exists "0.045", "0.061", "0.007", "".
      repeat split; try discriminate; reflexivity.
    + intros b r E Hlt x Hx. apply latency_pattern_at_spec in Hx.
      destruct b as [|b0 [|b1 [|b2 [|b3 b]]]]; simpl in Hlt; try lia;
        unfold rtt_line in E; simpl in E; rewrite ?app_String, ?app_empty in E;
        simplify_eq; vm_compute in Hx; discriminate.
  - apply (proj1 (proj2 (proj2 (proj2
             (ping_ip_latency_or_unreachable (λ _, Raised TimeoutExpired)
                "10.0.0.5"))))).
    reflexivity.
Defined.

(** The probe on the two closing lines [ping] prints. *)
Example ping_sample :
  ping_ip (ping_answers sample_ping_output) "10.0.0.5" = Returned "0.052".
Proof. vm_compute. reflexivity. Qed.

(** ** Geolocation *)

(** The geo lookup never raises. *)
Lemma get_ip_location_returns get ip :
  ∃ city country, get_ip_location get ip = Returned (city, country).
Proof.
  unfold get_ip_location, try_except, raise_for_status.
  destruct (get ip) as [response|e]; simpl.
  - destruct ((400 <=? status_code response)%Z
              && (status_code response <? 600)%Z); simpl; [eauto|].
    destruct (json response) as [data|]; [|eauto].
    case_decide; eauto.
  - destruct e; eauto.
Qed.

(** C9. The geo lookup never raises to its caller: it always returns a pair.
    When [requests.get] raises, when the response has a 4xx or 5xx status,
    when its body is not JSON, or when the body's [status] field is not
    ["success"], the pair is [("Unknown", "Unknown")]. *)
Theorem get_ip_location_never_fails
    (get : string → result Response) (ip : string) :
  (∃ city country, get_ip_location get ip = Returned (city, country))
  ∧ (∀ e, get ip = Raised e →
     get_ip_location get ip = Returned ("Unknown", "Unknown"))
  ∧ (∀ response, get ip = Returned response →
     (400 ≤ status_code response < 600)%Z →
     get_ip_location get ip = Returned ("Unknown", "Unknown"))
  ∧ (∀ response, get ip = Returned response → json response = None →
     get_ip_location get ip = Returned ("Unknown", "Unknown"))
  ∧ (∀ response data, get ip = Returned response →
     json response = Some data → data !! "status" ≠ Some "success" →
     get_ip_location get ip = Returned ("Unknown", "Unknown")).
Proof.
  split; [apply get_ip_location_returns|].
  unfold get_ip_location, try_except, raise_for_status. repeat split.
  - intros e ->. destruct e; reflexivity.
  - intros response -> [Hlo Hhi]. simpl.
    apply Z.leb_le in Hlo. apply Z.ltb_lt in Hhi. rewrite Hlo, Hhi.
    reflexivity.
  - intros response -> Hjson. simpl. rewrite Hjson.
    destruct ((400 <=? status_code response)%Z
              && (status_code response <? 600)%Z); reflexivity.
  - intros response data -> Hjson Hstatus. simpl. rewrite Hjson.
    destruct ((400 <=? status_code response)%Z
              && (status_code response <? 600)%Z); simpl; [reflexivity|].
    rewrite decide_False by exact Hstatus. reflexivity.
Qed.

(** The cases of [get_ip_location_never_fails] on a refused query, a 503
    response and a connection error. *)
Lemma get_ip_location_never_fails_witness :
  get_ip_location
    (λ _, Returned {| status_code := 200; json := Some geo_fail_body |})
    "10.0.0.5" = Returned ("Unknown", "Unknown")
  ∧ get_ip_location (λ _, Returned {| status_code := 503; json := None |})
      "10.0.0.5" = Returned ("Unknown", "Unknown")
  ∧ get_ip_location (λ _, Raised RequestException) "10.0.0.5"
    = Returned ("Unknown", "Unknown").
Proof.
  split; [|split].
  - apply (proj2 (proj2 (proj2 (proj2 (get_ip_location_never_fails
             (λ _, Returned {| status_code := 200; json := Some geo_fail_body |})
             "10.0.0.5"))))
             {| status_code := 200; json := Some geo_fail_body |} geo_fail_body).
    + reflexivity.
    + reflexivity.
    + vm_compute. discriminate.
  - apply (proj1 (proj2 (proj2 (get_ip_location_never_fails
             (λ _, Returned {| status_code := 503; json := None |})
             "10.0.0.5")))
             {| status_code := 503; json := None |}).
    + reflexivity.
    + simpl. lia.
  - apply (proj1 (proj2 (get_ip_location_never_fails
             (λ _, Raised RequestException) "10.0.0.5")) RequestException).
    reflexivity.
Defined.

Example geo_success :
  get_ip_location
    (λ _, Returned {| status_code := 200;
                      json := Some {[ "status" := "success";
                                      "city" := "Frankfurt";
                                      "country" := "Germany" ]} |})
    "10.0.0.5" = Returned ("Frankfurt", "Germany").
Proof. vm_compute. reflexivity. Qed.

(** ** Report rows *)

(** The row of one iteration, field by field. *)
Lemma check_ip_row args w active names gossip k ip :
  ∃ latency city country,
    ping_ip (ping w k) ip = Returned latency
    ∧ get_ip_location (ip_api w k) ip = Returned (city, country)
    ∧ check_ip args w active names gossip k ip =
        Returned
          (if no_geo args
           then [ip; (classify ip gossip active names).1;
                 (classify ip gossip active names).2; latency]
           else [ip; (classify ip gossip active names).1;
                 strip_commas (classify ip gossip active names).2; latency;
                 city; country]).
Proof.
  destruct (ping_ip_returns (ping w k) ip) as [latency Hping].
  destruct (get_ip_location_returns (ip_api w k) ip)
    as (city & country & Hgeo).
  exists latency, city, country. split; [exact Hping|]. split; [exact Hgeo|].
  unfold check_ip. rewrite Hping. simpl.
  destruct (classify ip gossip active names) as [status name]. simpl.
  destruct (no_geo args); [reflexivity|]. rewrite Hgeo. reflexivity.
Qed.

(** The loop never raises, and makes one row per address. *)
Lemma check_ips_rows args w active names gossip k ips :
  ∃ rows,
    check_ips args w active names gossip k ips = Returned rows
    ∧ Forall2 (λ '(i, ip) row,
                 check_ip args w active names gossip i ip = Returned row)
              (imap (λ i ip, (k + i, ip)) ips) rows.
Proof.
  revert k. induction ips as [|ip ips IH]; intros k.
  - exists []. split; [reflexivity|constructor].
  - destruct (check_ip_row args w active names gossip k ip)
      as (latency & city & country & _ & _ & Hrow).
    destruct (IH (S k)) as (rows & Hrows & Hall).
    eexists. simpl. rewrite Hrow, Hrows. simpl. split; [reflexivity|].
    constructor.
    + rewrite Nat.add_0_r. exact Hrow.
    + erewrite imap_ext; [exact Hall|]. intros i x _. simpl.
      f_equal. lia.
Qed.

(** C7. Every row the loop assembles has a Status field that is one of
    [validator], [gossip] and [gossip_not_found]; the field is a function of
    the gossip lookup of the row's IP and of membership in the active set
    alone, whatever the probe, the geo lookup, the geo flag and the name map
    are; and its Validator Name field is not empty only when the Status is
    [validator]. *)
Theorem row_status_and_name
    (args : Args) (w : World) (active : gset string)
    (names : gmap string string) (gossip : list (gmap string string))
    (k : nat) (ips : list string) :
  ∃ rows,
    check_ips args w active names gossip k ips = Returned rows
    ∧ Forall2
        (λ ip row,
           ∃ status name latency geo,
             row = ip :: status :: name :: latency :: geo
             ∧ status =
                 match get_identity_from_gossip ip gossip with
                 | None => "gossip_not_found"
                 | Some identity =>
                     if decide (identity ∈ active) then "validator"
                     else "gossip"
                 end
             ∧ (status = "validator" ∨ status = "gossip"
                ∨ status = "gossip_not_found")
             ∧ (name ≠ EmptyString → status = "validator"))
        ips rows.
Proof.
  revert k. induction ips as [|ip ips IH]; intros k.
  - exists []. split; [reflexivity|constructor].
  - destruct (check_ip_row args w active names gossip k ip)
      as (latency & city & country & _ & _ & Hrow).
    destruct (IH (S k)) as (rows & Hrows & Hall).
    eexists. simpl. rewrite Hrow, Hrows. simpl. split; [reflexivity|].
    constructor; [|exact Hall].
    unfold classify. rewrite get_identity_truthy.
    destruct (get_identity_from_gossip ip gossip) as [identity|];
      [rewrite bool_decide_eq_true_2 by eauto|]; cbn [bool_decide];
      [destruct (decide (identity ∈ active))|];
      destruct (no_geo args); simpl;
      do 4 eexists; (split; [reflexivity|]); (split; [reflexivity|]);
      split; auto; intros Hname; try reflexivity; contradiction.
Qed.

(** ** Registry loads *)

(** C5, as stated, fails: a load that timed out and a load that found zero
    entries hand their caller the same value, for both registry loads. *)
Lemma failed_load_not_distinguishable :
  load_failed (A := gmap string (list (gmap string string)))
    (Raised TimeoutExpired)
  ∧ ¬ load_failed no_validators
  ∧ load_active_validators (Raised TimeoutExpired)
    = load_active_validators no_validators
  ∧ load_failed (A := list ValidatorInfo.entry) (Raised TimeoutExpired)
  ∧ ¬ load_failed no_validator_details
  ∧ load_validator_details (Raised TimeoutExpired)
    = load_validator_details no_validator_details.
Proof.
  repeat split.
  - intros [H|H]; [apply H; reflexivity|discriminate].
  - intros [H|H]; [apply H; reflexivity|discriminate].
Qed.

Lemma load_active_validators_failed run :
  load_failed run → load_active_validators run = Returned ∅.
Proof.
  unfold load_active_validators, try_except.
  destruct run as [result|e]; simpl.
  - intros [Hrc|Hout].
    + destruct (Z.eqb_spec (returncode result) 0); [contradiction|reflexivity].
    + rewrite Hout. destruct (returncode result =? 0)%Z; reflexivity.
  - intros _. destruct e; reflexivity.
Qed.

Lemma load_validator_details_failed run :
  load_failed run → load_validator_details run = Returned ∅.
Proof.
  unfold load_validator_details, try_except.
  destruct run as [result|e]; simpl.
  - intros [Hrc|Hout].
    + destruct (Z.eqb_spec (returncode result) 0); [contradiction|reflexivity].
    + rewrite Hout. destruct (returncode result =? 0)%Z; reflexivity.
  - intros _. destruct e; reflexivity.
Qed.

(** Neither registry load ever raises. *)
Lemma load_active_validators_returns run :
  ∃ active, load_active_validators run = Returned active.
Proof.
  unfold load_active_validators, try_except.
  destruct run as [result|e]; simpl.
  - destruct (returncode result =? 0)%Z; simpl; [|eauto].
    destruct (stdout result); eauto.
  - destruct e; eauto.
Qed.

Lemma load_validator_details_returns run :
  ∃ names, load_validator_details run = Returned names.
Proof.
  unfold load_validator_details, try_except.
  destruct run as [result|e]; simpl.
  - destruct (returncode result =? 0)%Z; simpl; [|eauto].
    destruct (stdout result); eauto.
  - destruct e; eauto.
Qed.

(** C5, amended. Every failing invocation of the active-set load and of the
    name-map load returns the empty collection and nothing besides: the value
    is the one a successful load that finds zero entries returns, so the
    caller cannot tell the two apart by it. *)
Theorem failed_load_returns_empty
    (validators_run :
       result (CompletedProcess (option (gmap string (list (gmap string string))))))
    (details_run : result (CompletedProcess (option (list ValidatorInfo.entry)))) :
  (load_failed validators_run →
     load_active_validators validators_run = Returned ∅
     ∧ load_active_validators validators_run
       = load_active_validators no_validators)
  ∧ (load_failed details_run →
     load_validator_details details_run = Returned ∅
     ∧ load_validator_details details_run
       = load_validator_details no_validator_details).
Proof.
  split; intros H.
  - rewrite (load_active_validators_failed _ H). split; reflexivity.
  - rewrite (load_validator_details_failed _ H). split; reflexivity.
Qed.

(** [failed_load_returns_empty] on a [solana] that exits with status 1 and on
    one that prints no JSON. *)
Lemma failed_load_returns_empty_witness :
  load_active_validators
    (Returned {| returncode := 1; stdout := None; stderr := "error" |})
  = Returned ∅
  ∧ load_validator_details
      (Returned {| returncode := 0; stdout := None; stderr := "" |})
    = Returned ∅.
Proof.
  split.
  - apply (proj1 (failed_load_returns_empty
             (Returned {| returncode := 1; stdout := None; stderr := "error" |})
             (Raised TimeoutExpired))).
    left. discriminate.
  - apply (proj2 (failed_load_returns_empty
             (Raised TimeoutExpired)
             (Returned {| returncode := 0; stdout := None; stderr := "" |}))).
    right. reflexivity.
Defined.

(** ** The run *)

Lemma load_gossip_data_failed run :
  load_failed run →
  load_gossip_data run = Returned None ∨ ∃ e, load_gossip_data run = Raised e.
Proof.
  unfold load_gossip_data, try_except.
  destruct run as [result|e]; simpl.
  - intros [Hrc|Hout].
    + destruct (Z.eqb_spec (returncode result) 0); [contradiction|]. auto.
    + rewrite Hout. destruct (returncode result =? 0)%Z; auto.
  - intros _. destruct e; eauto.
Qed.

(** [main] after its four setup calls have returned. *)
Lemma main_after_setup args w ips active names gossip_data :
  resolve_ips args w = Returned ips →
  load_active_validators (solana_validators w) = Returned active →
  load_validator_details (solana_validator_info w) = Returned names →
  load_gossip_data (solana_gossip w) = Returned gossip_data →
  main args w =
    if decide (ips = []) then Returned Exited
    else if decide (active = ∅) then Returned Exited
    else if decide (names = ∅) then Returned Exited
    else match gossip_data with
         | None | Some [] => Returned Exited
         | Some gossip =>
             results ← check_ips args w active names gossip 0 ips;
             save_results args w results
         end.
Proof.
  intros Hips Hactive Hnames Hgossip. unfold main.
  rewrite Hips, Hactive, Hnames, Hgossip. reflexivity.
Qed.

(** A run ends in one of four ways, decided by its setup. *)
Lemma main_cases args w :
  (setup_ok args w ∧
   ∃ ips data,
     resolve_ips args w = Returned ips ∧ length data = length ips
     ∧ main args w = save_results args w data)
  ∨ (¬ setup_ok args w ∧
     (main args w = Returned Exited ∨ ∃ e, main args w = Raised e)
     ∧ ∀ ping' ip_api' output_file',
         main args (with_probes w ping' ip_api' output_file') = main args w).
Proof.
  destruct (resolve_ips args w) as [ips|e] eqn:Hips; cycle 1.
  { right. split; [intros (?&?&?&?&?&_); congruence|].
    unfold main, with_probes, resolve_ips in *. simpl.
    rewrite Hips. split; [eauto|reflexivity]. }
  destruct (load_active_validators_returns (solana_validators w))
    as [active Hactive].
  destruct (load_validator_details_returns (solana_validator_info w))
    as [names Hnames].
  destruct (load_gossip_data (solana_gossip w)) as [gossip_data|e] eqn:Hgossip;
    cycle 1.
  { right. split; [intros (?&?&?&?&?&?&?&?&?&?&?&_); congruence|].
    unfold main, with_probes, resolve_ips in *. simpl.
    rewrite Hips, Hactive, Hnames, Hgossip. split; [eauto|reflexivity]. }
  assert (Hw : ∀ ping' ip_api' output_file',
    main args (with_probes w ping' ip_api' output_file') =
      if decide (ips = []) then Returned Exited
      else if decide (active = ∅) then Returned Exited
      else if decide (names = ∅) then Returned Exited
      else match gossip_data with
           | None | Some [] => Returned Exited
           | Some gossip =>
               results ← check_ips args
                 (with_probes w ping' ip_api' output_file')
                 active names gossip 0 ips;
               save_results args (with_probes w ping' ip_api' output_file')
                 results
           end).
  { intros. apply main_after_setup; assumption. }
  rewrite (main_after_setup _ _ _ _ _ _ Hips Hactive Hnames Hgossip).
  setoid_rewrite Hw. clear Hw.
  destruct (decide (ips = [])) as [Hi|Hi].
  { right. split; [|split; [auto|reflexivity]].
    intros (?&?&?&?&?&?&_). congruence. }
  destruct (decide (active = ∅)) as [Ha|Ha].
  { right. split; [|split; [auto|reflexivity]].
    intros (?&?&?&?&?&?&?&?&_). congruence. }
  destruct (decide (names = ∅)) as [Hn|Hn].
  { right. split; [|split; [auto|reflexivity]].
    intros (?&?&?&?&?&?&?&?&?&?&_). congruence. }
  destruct gossip_data as [[|entry gossip]|].
  - right. split; [|split; [auto|reflexivity]].
    intros (?&?&?&?&?&?&?&?&?&?&?&?). congruence.
  - left. split.
    + exists ips, active, names, (entry :: gossip). repeat split; auto.
    + destruct (check_ips_rows args w active names (entry :: gossip) 0 ips)
        as (rows & Hrows & Hall).
      exists ips, rows. split; [reflexivity|]. split.
      * apply Forall2_length in Hall. rewrite length_imap in Hall. lia.
      * rewrite Hrows. reflexivity.
  - right. split; [|split; [auto|reflexivity]].
    intros (?&?&?&?&?&?&?&?&?&?&?&?). congruence.
Qed.

(** *** A sample run *)

Example sample_run_with_geo :
  main with_geo sample_world =
    Returned (Saved
      [ ["IP"; "Status"; "Validator Name"; "Latency"];
        ["10.0.0.5"; "validator"; "Node One"; "0.052"; "Frankfurt"; "Germany"];
        ["10.0.0.9"; "gossip_not_found"; ""; "unreachable"; "Unknown"; "Unknown"] ]).
Proof. vm_compute. reflexivity. Qed.

(** The text of that file. *)
Example sample_file_text :
  csv_text
    [ ["IP"; "Status"; "Validator Name"; "Latency"];
      ["10.0.0.5"; "validator"; "Node One"; "0.052"; "Frankfurt"; "Germany"];
      ["10.0.0.9"; "gossip_not_found"; ""; "unreachable"; "Unknown"; "Unknown"] ]
  = "IP,Status,Validator Name,Latency" +:+ CRLF
    +:+ "10.0.0.5,validator,Node One,0.052,Frankfurt,Germany" +:+ CRLF
    +:+ "10.0.0.9,gossip_not_found,,unreachable,Unknown,Unknown" +:+ CRLF.
Proof. vm_compute. reflexivity. Qed.

(** C4, as stated, fails. With every load successful and two IPs to process,
    a registry that lists no validator ends the run before the loop, without
    a file; and with a complete setup, an output file that cannot be opened
    ends the run in the [IOError] clause, with nothing written. *)
Lemma run_without_file_after_good_loads :
  (¬ load_failed (solana_validators no_validators_world)
   ∧ ¬ load_failed (solana_validator_info no_validators_world)
   ∧ ¬ load_failed (solana_gossip no_validators_world)
   ∧ resolve_ips with_geo no_validators_world
     = Returned ["10.0.0.5"; "10.0.0.9"]
   ∧ main with_geo no_validators_world = Returned Exited)
  ∧ (¬ load_failed (solana_validators read_only_world)
     ∧ ¬ load_failed (solana_validator_info read_only_world)
     ∧ ¬ load_failed (solana_gossip read_only_world)
     ∧ resolve_ips with_geo read_only_world
       = Returned ["10.0.0.5"; "10.0.0.9"]
     ∧ main with_geo read_only_world = Returned NotSaved).
Proof.
  assert (Hok : ∀ A (doc : A),
    ¬ load_failed (Returned {| returncode := 0; stdout := Some doc;
                               stderr := "" |})).
  { intros A doc [H|H]; [apply H; reflexivity|discriminate]. }
  split; (split; [apply Hok|]); (split; [apply Hok|]); (split; [apply Hok|]);
    split; vm_compute; reflexivity.
Qed.

Lemma failed_load_blocks_setup args w :
  load_failed (solana_validators w) ∨ load_failed (solana_validator_info w)
  ∨ load_failed (solana_gossip w) ∨ resolve_ips args w = Returned [] →
  ¬ setup_ok args w.
Proof.
  intros H (ips & active & names & gossip & Hips & Hi & Hactive & Ha
            & Hnames & Hn & Hgossip & Hg).
  destruct H as [H|[H|[H|H]]].
  - apply load_active_validators_failed in H. congruence.
  - apply load_validator_details_failed in H. congruence.
  - apply load_gossip_data_failed in H as [H|[e H]]; congruence.
  - congruence.
Qed.

(** C4, amended. When one of the three setup loads fails or loads an empty
    collection, or the resolved IP list is empty, the run ends before the
    loop: it returns early or raises, whatever the probes and the output file
    would answer, and writes no file.  Otherwise it assembles one row per IP
    and, when the output file can be opened and written, writes the header
    and the rows, whatever the probes answer; an [IOError] raised while
    opening or writing the file is caught, and the run then ends without an
    exception and without a complete report. *)
Theorem run_saves_after_setup (args : Args) (w : World) :
  (load_failed (solana_validators w) ∨ load_failed (solana_validator_info w)
   ∨ load_failed (solana_gossip w) ∨ resolve_ips args w = Returned [] →
   ¬ setup_ok args w)
  ∧ (¬ setup_ok args w →
     (main args w = Returned Exited ∨ ∃ e, main args w = Raised e)
     ∧ ∀ ping' ip_api' output_file',
         main args (with_probes w ping' ip_api' output_file') = main args w)
  ∧ (setup_ok args w → output_file w = Returned () →
     ∃ ips data,
       resolve_ips args w = Returned ips ∧ length data = length ips
       ∧ main args w = Returned (Saved (header args :: data)))
  ∧ (setup_ok args w →
     ∀ e, output_file w = Raised e → is_IOError e = true →
     main args w = Returned NotSaved).
Proof.
  split; [apply failed_load_blocks_setup|].
  destruct (main_cases args w)
    as [(Hok & ips & data & Hips & Hlen & Hmain)|(Hno & Hend & Hsame)].
  - split; [intros H; contradiction|]. split.
    + intros _ Hout. exists ips, data. split; [exact Hips|].
      split; [exact Hlen|]. rewrite Hmain. unfold save_results.
      rewrite Hout. reflexivity.
    + intros _ e Hout Hio. rewrite Hmain. unfold save_results.
      rewrite Hout. simpl. rewrite Hio. reflexivity.
  - split; [intros _; split; assumption|].
    split; intros H; contradiction.
Qed.

(** [run_saves_after_setup] on the sample, and on the sample with a
    [solana validators] that exits with status 1. *)
Lemma run_saves_after_setup_witness :
  (∃ ips data,
     resolve_ips with_geo sample_world = Returned ips
     ∧ length data = length ips
     ∧ main with_geo sample_world
       = Returned (Saved (header with_geo :: data)))
  ∧ ¬ setup_ok with_geo
        {| ip_list_file := ip_list_file sample_world;
           ip_route := ip_route sample_world;
           solana_validators :=
             Returned {| returncode := 1; stdout := None; stderr := "" |};
           solana_validator_info := solana_validator_info sample_world;
           solana_gossip := solana_gossip sample_world;
           ping := ping sample_world;
           ip_api := ip_api sample_world;
           output_file := output_file sample_world |}.
Proof.
  split.
  - apply (proj1 (proj2 (proj2 (run_saves_after_setup with_geo sample_world)))).
    + exists ["10.0.0.5"; "10.0.0.9"], {[ "ABC" ]}, {[ "ABC" := "Node, One" ]},
        [ {[ "ipAddress" := "10.0.0.5"; "identityPubkey" := "ABC" ]} ].
      split; [vm_compute; reflexivity|]. split; [discriminate|].
      split; [vm_compute; reflexivity|].
      split; [intros H; apply (f_equal (λ s : gset string, bool_decide ("ABC" ∈ s))) in H;
              vm_compute in H; discriminate|].
      split; [vm_compute; reflexivity|].
      split; [intros H; apply (f_equal (λ m : gmap string string, m !! "ABC")) in H;
              vm_compute in H; discriminate|].
      split; [vm_compute; reflexivity|discriminate].
    + reflexivity.
  - apply (proj1 (run_saves_after_setup with_geo _)).
    left. simpl. left. discriminate.
Defined.

(** *** Header and rows *)

(** The header and the rows take opposite branches on [no_geo]: whenever a
    file is written, its header has six columns over rows of four, or four
    columns over rows of six. *)
Lemma header_never_fits_rows args w rows :
  main args w = Returned (Saved rows) →
  ∃ data,
    rows = header args :: data
    ∧ length (header args) = (if no_geo args then 6 else 4)
    ∧ Forall (λ row : list string,
                length row = if no_geo args then 4 else 6) data.
Proof.
  intros Hmain.
  destruct (main_cases args w)
    as [(_ & ips & data & Hips & _ & Hsave)|(_ & [H|[e H]] & _)];
    [|congruence..].
  assert (Hsetup : ∃ active names gossip_data,
    load_active_validators (solana_validators w) = Returned active
    ∧ load_validator_details (solana_validator_info w) = Returned names
    ∧ load_gossip_data (solana_gossip w) = Returned gossip_data).
  { destruct (load_active_validators_returns (solana_validators w)) as [a Ha].
    destruct (load_validator_details_returns (solana_validator_info w))
      as [n Hn].
    destruct (load_gossip_data (solana_gossip w)) as [g|e] eqn:Hg; [eauto 6|].
    unfold main in Hmain. rewrite Hips, Ha, Hn, Hg in Hmain. discriminate. }
  destruct Hsetup as (active & names & gossip_data & Ha & Hn & Hg).
  rewrite (main_after_setup _ _ _ _ _ _ Hips Ha Hn Hg) in Hmain.
  repeat case_decide; try discriminate.
  destruct gossip_data as [[|entry gossip]|]; try discriminate.
  destruct (check_ips_rows args w active names (entry :: gossip) 0 ips)
    as (results & Hresults & Hall).
  rewrite Hresults in Hmain. simpl in Hmain. unfold save_results in Hmain.
  destruct (output_file w) as [[]|e]; simpl in Hmain;
    [|destruct (is_IOError e); discriminate].
  injection Hmain as <-. exists results. split; [reflexivity|]. split.
  - unfold header. destruct (no_geo args); reflexivity.
  - clear Hresults. revert Hall. generalize (imap (λ i ip, (0 + i, ip)) ips).
    intros l Hall. induction Hall as [|[i ip] row l results Hrow _ IH];
      constructor; [|exact IH].
    destruct (check_ip_row args w active names (entry :: gossip) i ip)
      as (latency & city & country & _ & _ & Hrow').
    rewrite Hrow' in Hrow. injection Hrow as <-.
    destruct (no_geo args); reflexivity.
Qed.

(** C2. The code does not write the header the claim states.  With geo
    enrichment disabled ([--no_geo]) the sample run writes the six-column
    header over rows of four fields; with geo enrichment enabled it writes
    the four-column header over rows of six fields. *)
Theorem geo_header_is_swapped :
  main without_geo sample_world =
    Returned (Saved
      [ ["IP"; "Status"; "Validator Name"; "Latency"; "City"; "Country"];
        ["10.0.0.5"; "validator"; "Node, One"; "0.052"];
        ["10.0.0.9"; "gossip_not_found"; ""; "unreachable"] ])
  ∧ writerow (header without_geo)
    = "IP,Status,Validator Name,Latency,City,Country" +:+ CRLF
  ∧ main with_geo sample_world =
      Returned (Saved
        [ ["IP"; "Status"; "Validator Name"; "Latency"];
          ["10.0.0.5"; "validator"; "Node One"; "0.052"; "Frankfurt"; "Germany"];
          ["10.0.0.9"; "gossip_not_found"; ""; "unreachable"; "Unknown";
           "Unknown"] ])
  ∧ writerow (header with_geo) = "IP,Status,Validator Name,Latency" +:+ CRLF.
Proof. repeat split; vm_compute; reflexivity. Qed.

(** *** Commas in the validator name *)

Lemma strip_commas_no_comma s : has_char ","%char (strip_commas s) = false.
Proof.
  induction s as [|c s IH]; [reflexivity|]. cbn [strip_commas].
  destruct (Ascii.eqb c ","%char) eqn:Hc; [exact IH|].
  cbn [has_char]. rewrite IH, orb_false_r, Ascii.eqb_sym. exact Hc.
Qed.

(** With geo enrichment the name field of a row holds no comma, and the
    classification is the one computed before the row was assembled. *)
Lemma geo_row_name_stripped args w active names gossip k ip row :
  no_geo args = false →
  check_ip args w active names gossip k ip = Returned row →
  ∃ name,
    row !! 2 = Some name
    ∧ name = strip_commas (classify ip gossip active names).2
    ∧ has_char ","%char name = false.
Proof.
  intros Hgeo Hrow.
  destruct (check_ip_row args w active names gossip k ip)
    as (latency & city & country & _ & _ & Hrow').
  rewrite Hrow', Hgeo in Hrow. injection Hrow as <-.
  eexists. split; [reflexivity|]. split; [reflexivity|].
  apply strip_commas_no_comma.
Qed.

(** C3. The code does not strip the commas for every geo-flag value.  With
    geo enrichment disabled the sample's validator row carries the name with
    its comma, which the writer quotes; with geo enrichment enabled the comma
    is gone.  The classification result is the same pair in both runs. *)
Theorem commas_kept_without_geo :
  classify "10.0.0.5"
    [ {[ "ipAddress" := "10.0.0.5"; "identityPubkey" := "ABC" ]} ]
    {[ "ABC" ]} {[ "ABC" := "Node, One" ]} = ("validator", "Node, One")
  ∧ check_ip without_geo sample_world {[ "ABC" ]} {[ "ABC" := "Node, One" ]}
      [ {[ "ipAddress" := "10.0.0.5"; "identityPubkey" := "ABC" ]} ]
      0 "10.0.0.5"
    = Returned ["10.0.0.5"; "validator"; "Node, One"; "0.052"]
  ∧ writerow ["10.0.0.5"; "validator"; "Node, One"; "0.052"]
    = "10.0.0.5,validator," +:+ String quotechar "Node, One"
      +:+ String quotechar ",0.052" +:+ CRLF
  ∧ check_ip with_geo sample_world {[ "ABC" ]} {[ "ABC" := "Node, One" ]}
      [ {[ "ipAddress" := "10.0.0.5"; "identityPubkey" := "ABC" ]} ]
      0 "10.0.0.5"
    = Returned ["10.0.0.5"; "validator"; "Node One"; "0.052"; "Frankfurt";
                "Germany"].
Proof. repeat split; vm_compute; reflexivity. Qed.

(** ** Properties of the loads beyond the three failure cases *)

Lemma detail_of_Some v key name :
  detail_of v = Some (key, name) ↔
  ValidatorInfo.identityPubkey v = Some key ∧ key ≠ EmptyString
  ∧ info_name v = Some name ∧ name ≠ EmptyString.
Proof.
  unfold detail_of. split.
  - destruct (truthy (ValidatorInfo.identityPubkey v)) eqn:Hk; [|discriminate].
    destruct (truthy (info_name v)) eqn:Hn; [|discriminate].
    apply truthy_Some in Hk as (k & Hk & Hk'), Hn as (n & Hn & Hn').
    rewrite Hk, Hn. intros [= <- <-]. auto.
  - intros (Hk & Hk' & Hn & Hn').
    rewrite (proj2 (truthy_Some _)), (proj2 (truthy_Some _)) by eauto.
    rewrite Hk, Hn. reflexivity.
Qed.

Lemma add_validator_detail_detail_of names v :
  add_validator_detail names v =
    match detail_of v with
    | Some (key, name) => <[key := name]> names
    | None => names
    end.
Proof.
  unfold add_validator_detail, detail_of.
  destruct (truthy (ValidatorInfo.identityPubkey v) && truthy (info_name v));
    [|reflexivity].
  destruct (ValidatorInfo.identityPubkey v), (info_name v); reflexivity.
Qed.

Lemma validator_map_lookup (data : list ValidatorInfo.entry) key name :
  foldl add_validator_detail ∅ data !! key = Some name ↔
  ∃ before v after,
    data = (before ++ v :: after)%list
    ∧ detail_of v = Some (key, name)
    ∧ Forall (λ later, ∀ name', detail_of later ≠ Some (key, name')) after.
Proof.
  induction data as [|x data IH] using rev_ind.
  - simpl. rewrite lookup_empty. split; [discriminate|].
    intros (before & v & after & E & _). destruct before; discriminate.
  - rewrite foldl_snoc, add_validator_detail_detail_of. split.
    + intros Hlook. destruct (detail_of x) as [[k n]|] eqn:Hx.
      * destruct (decide (k = key)) as [->|Hne].
        -- rewrite lookup_insert_eq in Hlook. injection Hlook as ->.
           exists data, x, []. split; [reflexivity|]. split; [exact Hx|].
           constructor.
        -- rewrite lookup_insert_ne in Hlook by exact Hne.
           apply IH in Hlook as (before & v & after & -> & Hv & Hafter).
           exists before, v, (after ++ [x])%list.
           split; [rewrite <- app_assoc; reflexivity|]. split; [exact Hv|].
           apply Forall_app. split; [exact Hafter|].
           constructor; [|constructor]. intros name'. congruence.
      * apply IH in Hlook as (before & v & after & -> & Hv & Hafter).
        exists before, v, (after ++ [x])%list.
        split; [rewrite <- app_assoc; reflexivity|]. split; [exact Hv|].
        apply Forall_app. split; [exact Hafter|].
        constructor; [|constructor]. intros name'. congruence.
    + intros (before & v & after & E & Hv & Hafter).
      destruct after as [|y after _] using rev_ind.
      * apply app_inj_tail in E as [-> ->]. rewrite Hv.
        apply lookup_insert_eq.
      * rewrite app_comm_cons, app_assoc in E.
        apply app_inj_tail in E as [-> ->].
        apply Forall_app in Hafter as [Hafter Hx].
        apply Forall_cons in Hx as [Hx _].
        assert (Hold : foldl add_validator_detail ∅ (before ++ v :: after)
                       !! key = Some name).
        { apply IH. exists before, v, after. auto. }
        destruct (detail_of y) as [[k n]|] eqn:Hdy; [|exact Hold].
        rewrite lookup_insert_ne; [exact Hold|].
        intros ->. exact (Hx n eq_refl).
Qed.

(** X1. A successful [load_validator_details] maps an identity to a name
    exactly when some entry carries that identity and that name, both present
    and not empty, and no later entry carries the identity with a name of its
    own: entries that lack an identity or a name are dropped, and of two
    entries for one identity the later one stays. *)
Theorem load_validator_details_entries
    (data : list ValidatorInfo.entry) (err : string) :
  ∃ names,
    load_validator_details
      (Returned {| returncode := 0; stdout := Some data; stderr := err |})
    = Returned names
    ∧ ∀ key name,
        names !! key = Some name ↔
        ∃ before v after,
          data = (before ++ v :: after)%list
          ∧ ValidatorInfo.identityPubkey v = Some key ∧ key ≠ EmptyString
          ∧ info_name v = Some name ∧ name ≠ EmptyString
          ∧ Forall (λ later,
                      ¬ (ValidatorInfo.identityPubkey later = Some key
                         ∧ truthy (info_name later) = true)) after.
Proof.
  eexists. split; [reflexivity|]. intros key name.
  rewrite validator_map_lookup. split.
  - intros (before & v & after & E & Hv & Hafter).
    exists before, v, after. apply detail_of_Some in Hv as (?&?&?&?).
    repeat split; try assumption.
    eapply Forall_impl; [exact Hafter|]. intros later Hl [Hk Hn].
    apply truthy_Some in Hn as (n & Hn & Hn').
    apply (Hl n), detail_of_Some.
    repeat split; try assumption.
  - intros (before & v & after & E & Hk & Hk' & Hn & Hn' & Hafter).
    exists before, v, after. split; [exact E|].
    split; [apply detail_of_Some; auto|].
    eapply Forall_impl; [exact Hafter|]. intros later Hl name' Hd.
    apply detail_of_Some in Hd as (?&?&Hnm&?). apply Hl.
    split; [assumption|]. apply truthy_Some. eauto.
Qed.

(** X2. A successful [load_active_validators] holds exactly the non-empty
    identities of the entries listed under ["validators"]; a document without
    that key gives the empty set. *)
Theorem load_active_validators_members
    (data : gmap string (list (gmap string string))) (err : string) :
  ∃ active,
    load_active_validators
      (Returned {| returncode := 0; stdout := Some data; stderr := err |})
    = Returned active
    ∧ ∀ identity,
        identity ∈ active ↔
        identity ≠ EmptyString
        ∧ ∃ validator_list v,
            data !! "validators" = Some validator_list
            ∧ v ∈ validator_list
            ∧ v !! "identityPubkey" = Some identity.
Proof.
  eexists. split; [reflexivity|]. intros identity.
  rewrite elem_of_list_to_set, list_elem_of_omap. split.
  - intros (v & Hin & Hv).
    destruct (truthy (v !! "identityPubkey")) eqn:Ht; [|discriminate].
    apply truthy_Some in Ht as (s & Hs & Hne).
    rewrite Hs in Hv. injection Hv as <-. split; [exact Hne|].
    destruct (data !! "validators") as [l|] eqn:Hl; simpl in Hin.
    + exists l, v. auto.
    + inversion Hin.
  - intros (Hne & l & v & Hl & Hin & Hv). exists v. rewrite Hl. simpl.
    split; [exact Hin|].
    rewrite (proj2 (truthy_Some _)) by eauto. exact Hv.
Qed.

(** ** The rows of a written file *)

Lemma check_ips_first_field args w active names gossip k ips results :
  Forall2 (λ '(i, ip) row,
             check_ip args w active names gossip i ip = Returned row)
          (imap (λ i ip, (k + i, ip)) ips) results →
  Forall2 (λ ip (row : list string), row !! 0%nat = Some ip) ips results.
Proof.
  revert k results. induction ips as [|ip ips IH]; intros k results Hall.
  - inversion Hall. constructor.
  - simpl in Hall. inversion Hall as [|? row ? results' Hrow Hrest]; subst.
    constructor.
    + destruct (check_ip_row args w active names gossip (k + 0) ip)
        as (latency & city & country & _ & _ & Hrow').
      rewrite Hrow' in Hrow. injection Hrow as <-.
      destruct (no_geo args); reflexivity.
    + apply (IH (S k) results').
      erewrite imap_ext; [exact Hrest|]. intros i x _. simpl. f_equal. lia.
Qed.

(** X3. A file that is written holds the header and then one row per
    resolved IP, in the order of the IP list and without merging repeated
    addresses: the first field of the [i]-th row is the [i]-th IP. *)
Theorem saved_rows_follow_ips (args : Args) (w : World)
    (rows : list (list string)) :
  main args w = Returned (Saved rows) →
  ∃ ips data,
    resolve_ips args w = Returned ips
    ∧ rows = header args :: data
    ∧ Forall2 (λ ip row, row !! 0 = Some ip) ips data.
Proof.
  intros Hmain.
  destruct (resolve_ips args w) as [ips|e] eqn:Hips;
    [|unfold main in Hmain; rewrite Hips in Hmain; discriminate].
  destruct (load_active_validators_returns (solana_validators w)) as [a Ha].
  destruct (load_validator_details_returns (solana_validator_info w))
    as [n Hn].
  destruct (load_gossip_data (solana_gossip w)) as [g|e] eqn:Hg;
    [|unfold main in Hmain; rewrite Hips, Ha, Hn, Hg in Hmain; discriminate].
  rewrite (main_after_setup _ _ _ _ _ _ Hips Ha Hn Hg) in Hmain.
  repeat case_decide; try discriminate.
  destruct g as [[|entry gossip]|]; try discriminate.
  destruct (check_ips_rows args w a n (entry :: gossip) 0 ips)
    as (results & Hresults & Hall).
  rewrite Hresults in Hmain. simpl in Hmain. unfold save_results in Hmain.
  destruct (output_file w) as [[]|e]; simpl in Hmain;
    [|destruct (is_IOError e); discriminate].
  injection Hmain as <-. exists ips, results.
  split; [reflexivity|]. split; [reflexivity|].
  exact (check_ips_first_field _ _ _ _ _ _ _ _ Hall).
Qed.

(** [saved_rows_follow_ips] on the sample run. *)
Lemma saved_rows_follow_ips_witness :
  ∃ ips data,
    resolve_ips with_geo sample_world = Returned ips
    ∧ [ ["IP"; "Status"; "Validator Name"; "Latency"];
        ["10.0.0.5"; "validator"; "Node One"; "0.052"; "Frankfurt"; "Germany"];
        ["10.0.0.9"; "gossip_not_found"; ""; "unreachable"; "Unknown";
         "Unknown"] ]
      = header with_geo :: data
    ∧ Forall2 (λ ip row, row !! 0 = Some ip) ips data.
Proof.
  apply (saved_rows_follow_ips with_geo sample_world).
  vm_compute. reflexivity.
Defined.

(** ** Routing table *)

(** X4. [get_ips_from_rt] never raises and returns no empty token; when the
    command raises or exits with a non-zero status the list is empty. *)
Theorem get_ips_from_rt_tokens (run : result (CompletedProcess string)) :
  ∃ ips,
    get_ips_from_rt run = Returned ips
    ∧ Forall (λ ip, ip ≠ EmptyString) ips
    ∧ ((∃ e, run = Raised e) → ips = [])
    ∧ (∀ result, run = Returned result → returncode result ≠ 0%Z → ips = [])
    ∧ (∀ result, run = Returned result → returncode result = 0%Z →
       ips = filter (λ ip, ip ≠ EmptyString)
               (split_lines (strip (stdout result)))).
Proof.
  unfold get_ips_from_rt, try_except. destruct run as [result|e]; simpl.
  - destruct (Z.eqb_spec (returncode result) 0) as [Hrc|Hrc]; simpl.
    + eexists. split; [reflexivity|]. split.
      * apply Forall_forall. intros ip Hin.
        apply list_elem_of_filter in Hin as [Hne _]. exact Hne.
      * split; [intros [e He]; discriminate|].
        split; [intros r [= <-] Hr; contradiction|].
        intros r [= <-] _. reflexivity.
    + exists []. split; [reflexivity|]. split; [constructor|].
      split; [reflexivity|]. split; [reflexivity|].
      intros r [= <-] Hr. contradiction.
  - exists []. split; [destruct e; reflexivity|]. split; [constructor|].
    split; [reflexivity|]. split; intros r Hr; discriminate.
Qed.

(** [get_ips_from_rt_tokens] on two routes, and on an [ip] that fails. *)
Lemma get_ips_from_rt_tokens_witness :
  get_ips_from_rt
    (Returned {| returncode := 0;
                 stdout := "10.0.0.5" +:+ LF +:+ "10.0.0.9" +:+ LF;
                 stderr := "" |})
  = Returned ["10.0.0.5"; "10.0.0.9"]
  ∧ get_ips_from_rt
      (Returned {| returncode := 1; stdout := "";
                   stderr := "Cannot find device" |})
    = Returned [].
Proof.
  split.
  - destruct (get_ips_from_rt_tokens
                (Returned {| returncode := 0;
                             stdout := "10.0.0.5" +:+ LF +:+ "10.0.0.9" +:+ LF;
                             stderr := "" |}))
      as (ips & Hips & _ & _ & _ & Hok).
    rewrite Hips. f_equal. apply (Hok _ eq_refl). reflexivity.
  - destruct (get_ips_from_rt_tokens
                (Returned {| returncode := 1; stdout := "";
                             stderr := "Cannot find device" |}))
      as (ips & Hips & _ & _ & Hbad & _).
    rewrite Hips. f_equal. apply (Hbad _ eq_refl). discriminate.
Defined.

(** ** Input of the run *)

Lemma lstrip_all_space s : all_space s = true → lstrip s = EmptyString.
Proof.
  induction s as [|c s IH]; [reflexivity|]. simpl.
  intros H. apply andb_true_iff in H as [Hc Hs]. rewrite Hc. exact (IH Hs).
Qed.

Lemma lstrip_head s c rest : lstrip s = String c rest → is_space c = false.
Proof.
  induction s as [|a s IH]; simpl; [discriminate|].
  destruct (is_space a) eqn:Ha; [exact IH|]. intros [= <- <-]. exact Ha.
Qed.

Lemma all_space_lstrip s : all_space (lstrip s) = all_space s.
Proof.
  induction s as [|c s IH]; [reflexivity|]. simpl.
  destruct (is_space c) eqn:Hc; [exact IH|]. simpl. rewrite Hc. reflexivity.
Qed.

Lemma rstrip_empty s : rstrip s = EmptyString ↔ all_space s = true.
Proof.
  induction s as [|c s IH]; simpl; [split; reflexivity|].
  destruct (rstrip s) as [|a kept] eqn:Hr.
  - destruct (is_space c); simpl.
    + split; [intros _; apply IH; reflexivity|reflexivity].
    + split; discriminate.
  - split; [discriminate|]. intros H. apply andb_true_iff in H as [_ Hs].
    apply IH in Hs. discriminate.
Qed.

Lemma strip_empty s : strip s = EmptyString ↔ all_space s = true.
Proof. unfold strip. rewrite rstrip_empty, all_space_lstrip. reflexivity. Qed.

Lemma rstrip_head c rest :
  is_space c = false → ∃ kept, rstrip (String c rest) = String c kept.
Proof.
  intros Hc. simpl. destruct (rstrip rest); [rewrite Hc|]; eauto.
Qed.

Lemma rstrip_idemp s : rstrip (rstrip s) = rstrip s.
Proof.
  induction s as [|c s IH]; [reflexivity|]. simpl.
  destruct (rstrip s) as [|a kept] eqn:Hr.
  - destruct (is_space c) eqn:Hc; [reflexivity|]. simpl. rewrite Hc.
    reflexivity.
  - change (rstrip (String c (String a kept)))
      with (match rstrip (String a kept) with
            | EmptyString =>
                if is_space c then EmptyString else String c EmptyString
            | k => String c k
            end).
    rewrite IH. reflexivity.
Qed.

Lemma strip_idemp s : strip (strip s) = strip s.
Proof.
  unfold strip. destruct (lstrip s) as [|c rest] eqn:Hl; [reflexivity|].
  pose proof (lstrip_head _ _ _ Hl) as Hc.
  destruct (rstrip_head c rest Hc) as [kept Hk].
  rewrite Hk. cbn [lstrip]. rewrite Hc, <- Hk. apply rstrip_idemp.
Qed.

Lemma lstrip_lead s :
  ∃ lead, s = lead +:+ lstrip s ∧ all_space lead = true.
Proof.
  induction s as [|c s (lead & E & Hlead)]; [exists EmptyString; auto|].
  cbn [lstrip]. destruct (is_space c) eqn:Hc.
  - exists (String c lead). rewrite app_String, <- E. split; [reflexivity|].
    cbn [all_space]. rewrite Hc, Hlead. reflexivity.
  - exists EmptyString. auto.
Qed.

Lemma rstrip_trail s :
  ∃ trail, s = rstrip s +:+ trail ∧ all_space trail = true.
Proof.
  induction s as [|c s (trail & E & Htrail)]; [exists EmptyString; auto|].
  cbn [rstrip]. destruct (rstrip s) as [|a kept] eqn:Hr.
  - rewrite app_empty in E. subst trail. destruct (is_space c) eqn:Hc.
    + exists (String c s). split; [reflexivity|].
      cbn [all_space]. rewrite Hc, Htrail. reflexivity.
    + exists s. auto.
  - exists trail. rewrite app_String, <- E. auto.
Qed.

Lemma rstrip_last s front c :
  rstrip s = front +:+ String c EmptyString → is_space c = false.
Proof.
  revert front. induction s as [|a s IH]; intros front; cbn [rstrip].
  - destruct front; discriminate.
  - destruct (rstrip s) as [|b kept] eqn:Hr.
    + destruct (is_space a) eqn:Ha; [destruct front; discriminate|].
      destruct front as [|x front]; [intros [= <-]; exact Ha|].
      rewrite app_String. intros [= _ H]. destruct front; discriminate.
    + destruct front as [|x front]; [discriminate|].
      rewrite app_String. intros [= _ H]. exact (IH front H).
Qed.

Lemma strip_first s c rest : strip s = String c rest → is_space c = false.
Proof.
  unfold strip. destruct (lstrip s) as [|a tail] eqn:Hl; [discriminate|].
  pose proof (lstrip_head _ _ _ Hl) as Ha.
  destruct (rstrip_head a tail Ha) as [kept ->]. intros [= <- _]. exact Ha.
Qed.

Lemma strip_padded s : padded s (strip s).
Proof.
  destruct (lstrip_lead s) as (lead & E & Hlead).
  destruct (rstrip_trail (lstrip s)) as (trail & E' & Htrail).
  exists lead, trail. unfold strip. rewrite <- E', <- E. auto.
Qed.

(** X5. With [--ip_list], the IPs of the run are cut out of the lines of the
    file that are not blank, in their order: each such line is its IP with
    white space only before and after it, and no IP is empty or starts or
    ends with a white space character. *)
Theorem ip_list_file_lines (args : Args) (w : World) (lines : list string) :
  truthy (ip_list args) = true →
  ip_list_file w = Returned lines →
  ∃ ips,
    resolve_ips args w = Returned ips
    ∧ Forall2 padded (filter (λ line, all_space line = false) lines) ips
    ∧ Forall (λ ip, ip ≠ EmptyString ∧ no_space_at_ends ip) ips.
Proof.
  intros Hlist Hfile. unfold resolve_ips. rewrite Hlist, Hfile.
  eexists. split; [reflexivity|].
  assert (Hips : filter (λ line, line ≠ EmptyString) (strip <$> lines)
                 = strip <$> filter (λ line, all_space line = false) lines).
  { clear Hfile. induction lines as [|line lines IH]; [reflexivity|].
    rewrite fmap_cons, !filter_cons, IH.
    destruct (decide (strip line ≠ EmptyString)) as [Hne|He];
      destruct (decide (all_space line = false)) as [Hb|Hb].
    + reflexivity.
    + exfalso. apply Hne, strip_empty. destruct (all_space line); congruence.
    + exfalso. apply He. intros Hs. apply strip_empty in Hs. congruence.
    + reflexivity. }
  split.
  - rewrite Hips. apply Forall2_fmap_r, Forall_Forall2_diag, Forall_forall.
    intros line _. apply strip_padded.
  - apply Forall_forall. intros ip Hin.
    apply list_elem_of_filter in Hin as [Hne Hin]. split; [exact Hne|].
    apply list_elem_of_fmap in Hin as (line & -> & _). split.
    + intros c rest. apply strip_first.
    + intros front c. apply rstrip_last.
Qed.

(** [ip_list_file_lines] on a file of two addresses around a line that holds
    a no-break space only. *)
Lemma ip_list_file_lines_witness :
  ∃ ips,
    resolve_ips {| ip_list := Some "ips.txt"; no_geo := false |}
      (with_ip_list_file sample_world
         (Returned ["10.0.0.5" +:+ LF; String (ascii_of_nat 160) LF;
                    " 10.0.0.9 " +:+ LF]))
    = Returned ips
    ∧ Forall2 padded
        (filter (λ line, all_space line = false)
           ["10.0.0.5" +:+ LF; String (ascii_of_nat 160) LF;
            " 10.0.0.9 " +:+ LF]) ips
    ∧ Forall (λ ip, ip ≠ EmptyString ∧ no_space_at_ends ip) ips.
Proof.
  apply (ip_list_file_lines {| ip_list := Some "ips.txt"; no_geo := false |}
           (with_ip_list_file sample_world
              (Returned ["10.0.0.5" +:+ LF; String (ascii_of_nat 160) LF;
                         " 10.0.0.9 " +:+ LF]))).
  - reflexivity.
  - reflexivity.
Defined.

Example ip_list_file_sample :
  resolve_ips {| ip_list := Some "ips.txt"; no_geo := false |}
    (with_ip_list_file sample_world
       (Returned ["10.0.0.5" +:+ LF; String (ascii_of_nat 160) LF;
                  " 10.0.0.9 " +:+ LF]))
  = Returned ["10.0.0.5"; "10.0.0.9"].
Proof. vm_compute. reflexivity. Qed.

Lemma split_lines_no_line_feed s :
  Forall (λ piece, has_char (ascii_of_nat 10) piece = false) (split_lines s).
Proof.
  induction s as [|c s IH]; cbn [split_lines]; [repeat constructor|].
  destruct (Ascii.eqb c (ascii_of_nat 10)) eqn:Hc.
  - constructor; [reflexivity|exact IH].
  - destruct (split_lines s) as [|piece pieces].
    + constructor; [|constructor]. cbn [has_char].
      rewrite Ascii.eqb_sym, Hc. reflexivity.
    + apply Forall_cons in IH as [Hp Hps]. constructor; [|exact Hps].
      cbn [has_char]. rewrite Ascii.eqb_sym, Hc. exact Hp.
Qed.

(** X6. No IP that [get_ips_from_rt] returns holds a line feed, and an
    output of white space only, as for an interface without routes, gives the
    empty list. *)
Theorem get_ips_from_rt_lines (run : result (CompletedProcess string)) :
  ∃ ips,
    get_ips_from_rt run = Returned ips
    ∧ Forall (λ ip, has_char (ascii_of_nat 10) ip = false) ips
    ∧ (∀ result, run = Returned result → all_space (stdout result) = true →
       ips = []).
Proof.
  unfold get_ips_from_rt, try_except. destruct run as [result|e]; simpl.
  - destruct (returncode result =? 0)%Z; simpl; eexists;
      (split; [reflexivity|]).
    + split.
      * apply Forall_forall. intros ip Hin.
        apply list_elem_of_filter in Hin as [_ Hin].
        pose proof (split_lines_no_line_feed (strip (stdout result))) as H.
        rewrite Forall_forall in H. exact (H ip Hin).
      * intros r [= <-] Hblank. apply strip_empty in Hblank.
        rewrite Hblank. reflexivity.
    + split; [constructor|reflexivity].
  - exists []. split; [destruct e; reflexivity|].
    split; [constructor|reflexivity].
Qed.

(** [get_ips_from_rt_lines] on an output of one blank line. *)
Lemma get_ips_from_rt_lines_witness :
  get_ips_from_rt
    (Returned {| returncode := 0; stdout := " " +:+ LF; stderr := "" |})
  = Returned [].
Proof.
  destruct (get_ips_from_rt_lines
              (Returned {| returncode := 0; stdout := " " +:+ LF;
                           stderr := "" |}))
    as (ips & Hips & _ & Hblank).
  rewrite Hips. f_equal. apply (Hblank _ eq_refl). reflexivity.
Defined.

(** ** The latency column *)

Lemma re_search_latency_run text latency :
  re_search_latency text = Some latency → is_run latency.
Proof.
  intros H. apply re_search_latency_Some in H as (_ & rest & _ & Hm & _).
  destruct Hm as (min & max & mdev & tail & _ & Havg & _). exact Havg.
Qed.

Lemma ping_ip_shape run ip :
  ∃ latency,
    ping_ip run ip = Returned latency
    ∧ (latency = "unreachable" ∨ is_run latency).
Proof.
  unfold ping_ip, try_except. destruct (run ip) as [result|e]; simpl.
  - destruct (returncode result =? 0)%Z; [|eauto].
    destruct (re_search_latency (stdout result)) as [latency|] eqn:Hs;
      [|eauto].
    exists latency. split; [reflexivity|]. right.
    exact (re_search_latency_run _ _ Hs).
  - destruct e; eauto.
Qed.

(** A run that writes a file went through the loop with loaded collections. *)
Lemma main_saved_inv args w rows :
  main args w = Returned (Saved rows) →
  ∃ ips active names gossip data,
    resolve_ips args w = Returned ips
    ∧ load_active_validators (solana_validators w) = Returned active
    ∧ load_validator_details (solana_validator_info w) = Returned names
    ∧ load_gossip_data (solana_gossip w) = Returned (Some gossip)
    ∧ rows = header args :: data
    ∧ Forall2 (λ '(i, ip) row,
                 check_ip args w active names gossip i ip = Returned row)
              (imap (λ i ip, (i, ip)) ips) data.
Proof.
  intros Hmain.
  destruct (resolve_ips args w) as [ips|e] eqn:Hips;
    [|unfold main in Hmain; rewrite Hips in Hmain; discriminate].
  destruct (load_active_validators_returns (solana_validators w)) as [a Ha].
  destruct (load_validator_details_returns (solana_validator_info w))
    as [n Hn].
  destruct (load_gossip_data (solana_gossip w)) as [g|e] eqn:Hg;
    [|unfold main in Hmain; rewrite Hips, Ha, Hn, Hg in Hmain; discriminate].
  rewrite (main_after_setup _ _ _ _ _ _ Hips Ha Hn Hg) in Hmain.
  repeat case_decide; try discriminate.
  destruct g as [[|entry gossip]|]; try discriminate.
  destruct (check_ips_rows args w a n (entry :: gossip) 0 ips)
    as (results & Hresults & Hall).
  rewrite Hresults in Hmain. simpl in Hmain. unfold save_results in Hmain.
  destruct (output_file w) as [[]|e]; simpl in Hmain;
    [|destruct (is_IOError e); discriminate].
  injection Hmain as <-.
  exists ips, a, n, (entry :: gossip), results. repeat split; try assumption.
Qed.

(** X7. The latency [ping_ip] returns is either ["unreachable"] or a
    non-empty string of digits and dots, and so is the Latency field, the
    fourth, of every data row of a written file. *)
Theorem latency_is_number_or_unreachable :
  (∀ run ip, ∃ latency,
     ping_ip run ip = Returned latency
     ∧ (latency = "unreachable" ∨ is_run latency))
  ∧ (∀ args w rows,
       main args w = Returned (Saved rows) →
       ∃ data,
         rows = header args :: data
         ∧ Forall (λ row : list string,
                     ∃ latency, row !! 3%nat = Some latency
                       ∧ (latency = "unreachable" ∨ is_run latency)) data).
Proof.
  split; [exact ping_ip_shape|]. intros args w rows Hmain.
  apply main_saved_inv in Hmain
    as (ips & active & names & gossip & data & _ & _ & _ & _ & -> & Hall).
  exists data. split; [reflexivity|].
  revert Hall. generalize (imap (λ (i : nat) (ip : string), (i, ip)) ips).
  intros l Hall. induction Hall as [|[i ip] row l data Hrow _ IH];
    constructor; [|exact IH].
  destruct (check_ip_row args w active names gossip i ip)
    as (latency & city & country & Hping & _ & Hrow').
  rewrite Hrow' in Hrow. injection Hrow as <-.
  destruct (ping_ip_shape (ping w i) ip) as (latency' & Hping' & Hshape).
  rewrite Hping in Hping'. injection Hping' as <-.
  exists latency. split; [destruct (no_geo args); reflexivity|exact Hshape].
Qed.

(** [latency_is_number_or_unreachable] on the sample run. *)
Lemma latency_is_number_or_unreachable_witness :
  ∃ data,
    [ ["IP"; "Status"; "Validator Name"; "Latency"];
      ["10.0.0.5"; "validator"; "Node One"; "0.052"; "Frankfurt"; "Germany"];
      ["10.0.0.9"; "gossip_not_found"; ""; "unreachable"; "Unknown";
       "Unknown"] ]
    = header with_geo :: data
    ∧ Forall (λ row : list string,
                ∃ latency, row !! 3%nat = Some latency
                  ∧ (latency = "unreachable" ∨ is_run latency)) data.
Proof.
  apply (proj2 latency_is_number_or_unreachable with_geo sample_world).
  vm_compute. reflexivity.
Defined.

(** ** Geolocation *)

(** X8. The geo lookup returns a pair other than [("Unknown", "Unknown")]
    only for a response outside the 4xx and 5xx statuses whose body is a JSON
    object with [status] equal to ["success"]; the pair is then the body's
    [city] and [country], each replaced by ["Unknown"] on its own when the
    body lacks it. *)
Theorem get_ip_location_found
    (get : string → result Response) (ip : string) :
  (∀ city country,
     get_ip_location get ip = Returned (city, country) →
     (city, country) ≠ ("Unknown", "Unknown") →
     ∃ response data,
       get ip = Returned response
       ∧ ¬ (400 ≤ status_code response < 600)%Z
       ∧ json response = Some data
       ∧ data !! "status" = Some "success"
       ∧ city = default "Unknown" (data !! "city")
       ∧ country = default "Unknown" (data !! "country"))
  ∧ (∀ response data,
       get ip = Returned response →
       ¬ (400 ≤ status_code response < 600)%Z →
       json response = Some data →
       data !! "status" = Some "success" →
       get_ip_location get ip
       = Returned (default "Unknown" (data !! "city"),
                   default "Unknown" (data !! "country"))).
Proof.
  unfold get_ip_location, try_except, raise_for_status. split.
  - intros city country. destruct (get ip) as [response|e]; simpl;
      [|destruct e; intros [= <- <-] H; contradiction].
    destruct (Z.leb_spec 400 (status_code response)) as [Hlo|Hlo];
      destruct (Z.ltb_spec (status_code response) 600) as [Hhi|Hhi]; simpl;
      try (intros [= <- <-] H; contradiction);
      (destruct (json response) as [data|] eqn:Hj; simpl;
         [|intros [= <- <-] H; contradiction];
       case_decide as Hs; [|intros [= <- <-] H; contradiction];
       intros [= <- <-] _; exists response, data;
       (split; [reflexivity|]); (split; [lia|]); (split; [exact Hj|]);
       (split; [exact Hs|]); split; reflexivity).
  - intros response data -> Hcode Hjson Hs. simpl.
    destruct (Z.leb_spec 400 (status_code response)) as [Hlo|Hlo];
      destruct (Z.ltb_spec (status_code response) 600) as [Hhi|Hhi]; simpl;
      try lia; rewrite Hjson, decide_True by exact Hs; reflexivity.
Qed.

(** [get_ip_location_found] on a body that names a country and no city. *)
Lemma get_ip_location_found_witness :
  get_ip_location
    (λ _, Returned {| status_code := 200;
                      json := Some {[ "status" := "success";
                                      "country" := "Germany" ]} |})
    "10.0.0.5"
  = Returned ("Unknown", "Germany").
Proof.
  etransitivity.
  - apply (proj2 (get_ip_location_found
             (λ _, Returned {| status_code := 200;
                               json := Some {[ "status" := "success";
                                               "country" := "Germany" ]} |})
             "10.0.0.5")
             {| status_code := 200;
                json := Some {[ "status" := "success";
                                "country" := "Germany" ]} |}
             {[ "status" := "success"; "country" := "Germany" ]}).
    + reflexivity.
    + simpl. lia.
    + reflexivity.
    + reflexivity.
  - vm_compute. reflexivity.
Defined.

(** ** What a run does not consult *)

(** Two worlds that agree on the setup, on the rows of the loop and on the
    output file give the same run. *)
Lemma main_agree args w w' :
  resolve_ips args w = resolve_ips args w' →
  solana_validators w = solana_validators w' →
  solana_validator_info w = solana_validator_info w' →
  solana_gossip w = solana_gossip w' →
  output_file w = output_file w' →
  (∀ active names gossip ips,
     check_ips args w active names gossip 0 ips
     = check_ips args w' active names gossip 0 ips) →
  main args w = main args w'.
Proof.
  intros Hips Hv Hd Hg Hout Hrows. unfold main.
  rewrite Hips, Hv, Hd, Hg.
  destruct (resolve_ips args w') as [ips|e]; [|reflexivity]. simpl.
  destruct (load_active_validators (solana_validators w')) as [a|e];
    [|reflexivity]. simpl.
  destruct (load_validator_details (solana_validator_info w')) as [n|e];
    [|reflexivity]. simpl.
  destruct (load_gossip_data (solana_gossip w')) as [g|e]; [|reflexivity].
  simpl. repeat case_decide; try reflexivity.
  destruct g as [[|entry gossip]|]; try reflexivity.
  rewrite Hrows. unfold save_results. rewrite Hout. reflexivity.
Qed.

Lemma check_ips_no_geo args w w' active names gossip k ips :
  no_geo args = true → ping w = ping w' →
  check_ips args w active names gossip k ips
  = check_ips args w' active names gossip k ips.
Proof.
  intros Hgeo Hping. revert k.
  induction ips as [|ip ips IH]; intros k; [reflexivity|]. simpl.
  unfold check_ip. rewrite Hgeo, Hping, IH. reflexivity.
Qed.

(** X9. With [--no_geo] the run never consults the geo service: whatever
    ip-api.com would answer, the run ends the same way with the same rows. *)
Theorem no_geo_run_ignores_ip_api
    (args : Args) (w : World) (ip_api' : nat → string → result Response) :
  no_geo args = true →
  main args (with_ip_api w ip_api') = main args w.
Proof.
  intros Hgeo. apply main_agree; try reflexivity.
  intros active names gossip ips.
  apply check_ips_no_geo; [exact Hgeo|reflexivity].
Qed.

(** [no_geo_run_ignores_ip_api] on the sample with a geo service that is
    down. *)
Lemma no_geo_run_ignores_ip_api_witness :
  main without_geo
    (with_ip_api sample_world (λ _ _, Raised RequestException))
  = main without_geo sample_world.
Proof.
  apply (no_geo_run_ignores_ip_api without_geo sample_world).
  reflexivity.
Defined.

Lemma check_ips_same_probes args w w' active names gossip k ips :
  ping w = ping w' → ip_api w = ip_api w' →
  check_ips args w active names gossip k ips
  = check_ips args w' active names gossip k ips.
Proof.
  intros Hping Hapi. revert k.
  induction ips as [|ip ips IH]; intros k; [reflexivity|]. simpl.
  unfold check_ip. rewrite Hping, Hapi, IH. reflexivity.
Qed.

(** X10. The IPs come from one source only.  With a non-empty [--ip_list]
    path the routing table is never consulted; without the option, or with
    an empty path, the file is never consulted. *)
Theorem ip_source_is_exclusive
    (args : Args) (w : World)
    (ip_route' : result (CompletedProcess string))
    (ip_list_file' : result (list string)) :
  (truthy (ip_list args) = true →
   main args (with_ip_route w ip_route') = main args w)
  ∧ (truthy (ip_list args) = false →
     main args (with_ip_list_file w ip_list_file') = main args w).
Proof.
  split; intros Hlist; apply main_agree; try reflexivity;
    try (unfold resolve_ips; rewrite Hlist; reflexivity);
    intros active names gossip ips; apply check_ips_same_probes; reflexivity.
Qed.

(** [ip_source_is_exclusive] on the sample: without [--ip_list] a missing
    file changes nothing, and with it a failing [ip route] changes nothing. *)
Lemma ip_source_is_exclusive_witness :
  main with_geo (with_ip_list_file sample_world (Raised OSError))
  = main with_geo sample_world
  ∧ main {| ip_list := Some "ips.txt"; no_geo := false |}
      (with_ip_route sample_world (Raised TimeoutExpired))
    = main {| ip_list := Some "ips.txt"; no_geo := false |} sample_world.
Proof.
  split.
  - apply (proj2 (ip_source_is_exclusive with_geo sample_world
                    (Raised TimeoutExpired) (Raised OSError))).
    reflexivity.
  - apply (proj1 (ip_source_is_exclusive
                    {| ip_list := Some "ips.txt"; no_geo := false |}
                    sample_world (Raised TimeoutExpired) (Raised OSError))).
    reflexivity.
Defined.

(** ** Lookup over a snapshot in parts *)

(** X11. The lookup over two snapshots laid end to end is the lookup in the
    first when that finds an identity, and the lookup in the second
    otherwise; and records of other addresses never change a lookup: it is
    the lookup over the records of the queried address alone. *)
Theorem get_identity_from_gossip_parts
    (ip : string) (first second : list (gmap string string)) :
  get_identity_from_gossip ip (first ++ second) =
    match get_identity_from_gossip ip first with
    | Some identity => Some identity
    | None => get_identity_from_gossip ip second
    end
  ∧ get_identity_from_gossip ip first =
      get_identity_from_gossip ip
        (filter (λ entry, entry !! "ipAddress" = Some ip) first).
Proof.
  split.
  - induction first as [|entry first IH]; [reflexivity|].
    rewrite <- app_comm_cons, !get_identity_cons.
    case_decide as Hu; [|exact IH].
    destruct Hu as [_ Hid]. apply truthy_Some in Hid as (s & -> & _).
    reflexivity.
  - induction first as [|entry first IH]; [reflexivity|].
    rewrite filter_cons, get_identity_cons.
    destruct (decide (entry !! "ipAddress" = Some ip)) as [Hip|Hip].
    + rewrite get_identity_cons, IH. reflexivity.
    + rewrite decide_False by (intros [H _]; contradiction). exact IH.
Qed.

(** ** What the status says *)

(** X12. The status tells how the address resolved: it is [validator]
    exactly when the lookup finds an identity of the active set, [gossip]
    exactly when it finds an identity outside it, and [gossip_not_found]
    exactly when it finds none. *)
Theorem status_tells_resolution
    (ip : string) (gossip : list (gmap string string))
    (active : gset string) (names : gmap string string) :
  ((classify ip gossip active names).1 = "validator" ↔
   ∃ identity,
     get_identity_from_gossip ip gossip = Some identity ∧ identity ∈ active)
  ∧ ((classify ip gossip active names).1 = "gossip" ↔
     ∃ identity,
       get_identity_from_gossip ip gossip = Some identity ∧ identity ∉ active)
  ∧ ((classify ip gossip active names).1 = "gossip_not_found" ↔
     get_identity_from_gossip ip gossip = None).
Proof.
  unfold classify. rewrite get_identity_truthy.
  destruct (get_identity_from_gossip ip gossip) as [identity|].
  - rewrite bool_decide_eq_true_2 by eauto.
    destruct (decide (identity ∈ active)) as [Hin|Hin]; simpl;
      repeat split; try discriminate; eauto;
      try (intros (id & [= <-] & H); contradiction).
  - cbn [bool_decide]. simpl. repeat split; try discriminate;
      intros (id & H & _); discriminate.
Qed.

(** ** What the loaded collections hold *)

Lemma loaded_names_nonempty run names :
  load_validator_details run = Returned names →
  ∀ key name,
    names !! key = Some name → key ≠ EmptyString ∧ name ≠ EmptyString.
Proof.
  unfold load_validator_details, try_except.
  assert (Hempty : ∀ key name,
    (∅ : gmap string string) !! key = Some name →
    key ≠ EmptyString ∧ name ≠ EmptyString).
  { intros key name H. rewrite lookup_empty in H. discriminate. }
  destruct run as [result|e]; simpl.
  - destruct (returncode result =? 0)%Z; simpl;
      [|intros [= <-]; exact Hempty].
    destruct (stdout result) as [data|]; simpl;
      [|intros [= <-]; exact Hempty].
    intros [= <-] key name Hlook.
    apply validator_map_lookup in Hlook as (_ & v & _ & _ & Hv & _).
    apply detail_of_Some in Hv as (_ & Hk & _ & Hn). auto.
  - intros H. assert (names = ∅) as -> by (destruct e; congruence).
    exact Hempty.
Qed.

(** X13. Whatever the commands answer, the loaded active set does not hold
    the empty identity, and the loaded name map has no empty key and no
    empty name. *)
Theorem loaded_collections_hold_no_empty_string
    (validators_run :
       result (CompletedProcess (option (gmap string (list (gmap string string))))))
    (details_run : result (CompletedProcess (option (list ValidatorInfo.entry)))) :
  ∃ active names,
    load_active_validators validators_run = Returned active
    ∧ load_validator_details details_run = Returned names
    ∧ (EmptyString ∉ active)
    ∧ ∀ key name,
        names !! key = Some name → key ≠ EmptyString ∧ name ≠ EmptyString.
Proof.
  destruct (load_validator_details_returns details_run) as [names Hnames].
  assert (Hactive : ∃ active,
    load_active_validators validators_run = Returned active
    ∧ (EmptyString ∉ active)).
  { unfold load_active_validators, try_except.
    destruct validators_run as [result|e]; simpl.
    - destruct (returncode result =? 0)%Z; simpl;
        [|exists ∅; split; [reflexivity|set_solver]].
      destruct (stdout result) as [data|]; simpl;
        [|exists ∅; split; [reflexivity|set_solver]].
      eexists. split; [reflexivity|].
      rewrite elem_of_list_to_set, list_elem_of_omap.
      intros (v & _ & Hv).
      destruct (truthy (v !! "identityPubkey")) eqn:Ht; [|discriminate].
      rewrite Hv in Ht. discriminate.
    - exists ∅. split; [destruct e; reflexivity|set_solver]. }
  destruct Hactive as (active & Hactive & Hne).
  exists active, names. split; [exact Hactive|]. split; [exact Hnames|].
  split; [exact Hne|]. exact (loaded_names_nonempty _ _ Hnames).
Qed.

(** X14. With a name map as [load_validator_details] returns it, a row is
    classified [validator] exactly when the classification gives it a name:
    an active validator without an entry is named ["Unknown"], never the
    empty string. *)
Theorem validator_iff_named
    (details_run : result (CompletedProcess (option (list ValidatorInfo.entry))))
    (names : gmap string string)
    (ip : string) (gossip : list (gmap string string)) (active : gset string) :
  load_validator_details details_run = Returned names →
  ((classify ip gossip active names).1 = "validator" ↔
   (classify ip gossip active names).2 ≠ EmptyString).
Proof.
  intros Hload. unfold classify. rewrite get_identity_truthy.
  destruct (get_identity_from_gossip ip gossip) as [identity|].
  - rewrite bool_decide_eq_true_2 by eauto.
    destruct (decide (identity ∈ active)) as [Hin|Hin]; simpl.
    + split; [|reflexivity]. intros _.
      destruct (names !! identity) as [name|] eqn:Hname; simpl;
        [|discriminate].
      exact (proj2 (loaded_names_nonempty _ _ Hload _ _ Hname)).
    + split; [discriminate|]. intros H. contradiction.
  - cbn [bool_decide]. simpl. split; [discriminate|].
    intros H. contradiction.
Qed.

(** [validator_iff_named] on the sample's registry. *)
Lemma validator_iff_named_witness :
  (classify "10.0.0.5"
     [ {[ "ipAddress" := "10.0.0.5"; "identityPubkey" := "ABC" ]} ]
     {[ "ABC" ]} {[ "ABC" := "Node, One" ]}).1 = "validator" ↔
  (classify "10.0.0.5"
     [ {[ "ipAddress" := "10.0.0.5"; "identityPubkey" := "ABC" ]} ]
     {[ "ABC" ]} {[ "ABC" := "Node, One" ]}).2 ≠ EmptyString.
Proof.
  apply (validator_iff_named (solana_validator_info sample_world)).
  vm_compute. reflexivity.
Defined.

(** X15. A listed validator is reported under its name.  When the gossip
    snapshot's first usable record for an IP carries an identity that an
    entry under ["validators"] carries too, and the last entry of the
    validator-info document that has this identity and a name has the name
    [name], then with the collections the two loads return the IP is
    classified [validator] with that name. *)
Theorem listed_validator_is_named
    (validators_doc : gmap string (list (gmap string string)))
    (details_doc : list ValidatorInfo.entry) (err1 err2 : string)
    (ip identity name : string)
    (validator_list : list (gmap string string)) (v : gmap string string)
    (before after : list ValidatorInfo.entry) (d : ValidatorInfo.entry)
    (skipped rest : list (gmap string string)) (entry : gmap string string) :
  validators_doc !! "validators" = Some validator_list →
  v ∈ validator_list →
  v !! "identityPubkey" = Some identity →
  identity ≠ EmptyString →
  details_doc = (before ++ d :: after)%list →
  ValidatorInfo.identityPubkey d = Some identity →
  info_name d = Some name →
  name ≠ EmptyString →
  Forall (λ later, ¬ (ValidatorInfo.identityPubkey later = Some identity
                      ∧ truthy (info_name later) = true)) after →
  Forall (λ e, ¬ usable ip e) skipped →
  entry !! "ipAddress" = Some ip →
  entry !! "identityPubkey" = Some identity →
  ∃ active names,
    load_active_validators
      (Returned {| returncode := 0; stdout := Some validators_doc;
                   stderr := err1 |}) = Returned active
    ∧ load_validator_details
        (Returned {| returncode := 0; stdout := Some details_doc;
                     stderr := err2 |}) = Returned names
    ∧ classify ip (skipped ++ entry :: rest) active names
      = ("validator", name).
Proof.
  intros Hlist Hv Hvid Hid -> Hdid Hdname Hname Hafter Hskipped Hip Heid.
  eexists _, _. split; [reflexivity|]. split; [reflexivity|].
  unfold classify.
  rewrite get_identity_app_skip by exact Hskipped.
  rewrite get_identity_cons, decide_True
    by (split; [exact Hip|apply truthy_Some; eauto]).
  rewrite Heid, (proj2 (truthy_Some _)) by eauto.
  rewrite decide_True.
  - f_equal.
    assert (Hlook : foldl add_validator_detail ∅ (before ++ d :: after)
                    !! identity = Some name).
    { apply validator_map_lookup. exists before, d, after.
      split; [reflexivity|]. split; [apply detail_of_Some; auto|].
      eapply Forall_impl; [exact Hafter|]. intros later Hl name' Hd.
      apply detail_of_Some in Hd as (?&?&?&?). apply Hl.
      split; [assumption|]. apply truthy_Some. eauto. }
    rewrite Hlook. reflexivity.
  - rewrite elem_of_list_to_set, list_elem_of_omap. exists v.
    rewrite Hlist. simpl. split; [exact Hv|].
    rewrite Hvid, (proj2 (truthy_Some _)) by eauto. reflexivity.
Qed.

(** [listed_validator_is_named] on the documents of the sample. *)
Lemma listed_validator_is_named_witness :
  ∃ active names,
    load_active_validators (solana_validators sample_world) = Returned active
    ∧ load_validator_details (solana_validator_info sample_world)
      = Returned names
    ∧ classify "10.0.0.5"
        [ {[ "ipAddress" := "10.0.0.5"; "identityPubkey" := "ABC" ]} ]
        active names
      = ("validator", "Node, One").
Proof.
  apply (listed_validator_is_named
           {[ "validators" := [ {[ "identityPubkey" := "ABC" ]} ] ]}
           [ {| ValidatorInfo.identityPubkey := Some "ABC";
                ValidatorInfo.info := Some {[ "name" := "Node, One" ]} |} ]
           "" "" "10.0.0.5" "ABC" "Node, One"
           [ {[ "identityPubkey" := "ABC" ]} ] {[ "identityPubkey" := "ABC" ]}
           []
           []
           {| ValidatorInfo.identityPubkey := Some "ABC";
              ValidatorInfo.info := Some {[ "name" := "Node, One" ]} |}
           [] []
           {[ "ipAddress" := "10.0.0.5"; "identityPubkey" := "ABC" ]}).
  - vm_compute. reflexivity.
  - apply list_elem_of_here.
  - vm_compute. reflexivity.
  - discriminate.
  - reflexivity.
  - reflexivity.
  - vm_compute. reflexivity.
  - discriminate.
  - constructor.
  - constructor.
  - vm_compute. reflexivity.
  - vm_compute. reflexivity.
Defined.

(** ** When a run raises *)

Lemma get_ips_from_rt_returns run : ∃ ips, get_ips_from_rt run = Returned ips.
Proof.
  unfold get_ips_from_rt, try_except. destruct run as [result|e]; simpl.
  - destruct (returncode result =? 0)%Z; simpl; eauto.
  - destruct e; eauto.
Qed.

Lemma resolve_ips_raises args w e :
  resolve_ips args w = Raised e ↔
  truthy (ip_list args) = true ∧ ip_list_file w = Raised e.
Proof.
  unfold resolve_ips. destruct (truthy (ip_list args)).
  - destruct (ip_list_file w) as [lines|e']; simpl.
    + split; [discriminate|intros [_ H]; discriminate].
    + split; [intros [= ->]; auto|intros [_ [= ->]]; reflexivity].
  - destruct (get_ips_from_rt_returns (ip_route w)) as [ips ->].
    split; [discriminate|intros [H _]; discriminate].
Qed.

Lemma load_gossip_data_raises run e :
  load_gossip_data run = Raised e ↔
  run = Raised e ∧ gossip_load_catches e = false.
Proof.
  unfold load_gossip_data, try_except. destruct run as [result|e']; simpl.
  - destruct (returncode result =? 0)%Z; simpl;
      [destruct (stdout result); simpl|];
      (split; [discriminate|intros [H _]; discriminate]).
  - destruct e'; simpl;
      (split; [try discriminate; intros [= <-]; auto
              |intros [[= <-] H]; try discriminate; reflexivity]).
Qed.

(** X16. A failing probe or geo lookup never ends a run with an exception.
    The run raises exactly in three cases: the [--ip_list] file cannot be
    read; the IPs are resolved and the [solana gossip] command raises an
    exception other than the three [load_gossip_data] has a clause for; or
    the setup is complete and writing the output file raises an exception
    that is no [IOError]. *)
Theorem main_raises_only (args : Args) (w : World) (e : exn) :
  main args w = Raised e ↔
    (truthy (ip_list args) = true ∧ ip_list_file w = Raised e)
    ∨ ((∃ ips, resolve_ips args w = Returned ips)
       ∧ solana_gossip w = Raised e ∧ gossip_load_catches e = false)
    ∨ (setup_ok args w ∧ output_file w = Raised e ∧ is_IOError e = false).
Proof.
  destruct (resolve_ips args w) as [ips|e0] eqn:Hips.
  - destruct (load_active_validators_returns (solana_validators w))
      as [a Ha].
    destruct (load_validator_details_returns (solana_validator_info w))
      as [n Hn].
    destruct (load_gossip_data (solana_gossip w)) as [g|e1] eqn:Hg.
    + rewrite (main_after_setup _ _ _ _ _ _ Hips Ha Hn Hg).
      assert (Hnot1 : ¬ (truthy (ip_list args) = true
                         ∧ ip_list_file w = Raised e)).
      { intros H. apply resolve_ips_raises in H. congruence. }
      assert (Hnot2 : ¬ (solana_gossip w = Raised e
                         ∧ gossip_load_catches e = false)).
      { intros H. apply load_gossip_data_raises in H. congruence. }
      destruct (decide (ips = [])) as [Hi|Hi].
      { split; [discriminate|]. intros [H|[(_ & H)|[H _]]]; try contradiction.
        destruct H as (?&?&?&?&?&?&_). congruence. }
      destruct (decide (a = ∅)) as [Hae|Hae].
      { split; [discriminate|]. intros [H|[(_ & H)|[H _]]]; try contradiction.
        destruct H as (?&?&?&?&?&?&?&?&_). congruence. }
      destruct (decide (n = ∅)) as [Hne|Hne].
      { split; [discriminate|]. intros [H|[(_ & H)|[H _]]]; try contradiction.
        destruct H as (?&?&?&?&?&?&?&?&?&?&_). congruence. }
      destruct g as [[|entry gossip]|].
      * split; [discriminate|]. intros [H|[(_ & H)|[H _]]]; try contradiction.
        destruct H as (?&?&?&?&?&?&?&?&?&?&?&?). congruence.
      * destruct (check_ips_rows args w a n (entry :: gossip) 0 ips)
          as (results & -> & _).
        simpl. unfold save_results, try_except.
        destruct (output_file w) as [[]|e2] eqn:Hout; simpl.
        -- split; [discriminate|].
           intros [H|[(_ & H)|(_ & H & _)]]; try contradiction. discriminate.
        -- destruct (is_IOError e2) eqn:Hio.
           ++ split; [discriminate|].
              intros [H|[(_ & H)|(_ & [= <-] & H)]]; try contradiction.
              congruence.
           ++ split.
              ** intros [= <-]. right. right. split; [|auto].
                 exists ips, a, n, (entry :: gossip). repeat split; auto.
              ** intros [H|[(_ & H)|(_ & [= <-] & _)]]; try contradiction.
                 reflexivity.
      * split; [discriminate|]. intros [H|[(_ & H)|[H _]]]; try contradiction.
        destruct H as (?&?&?&?&?&?&?&?&?&?&?&?). congruence.
    + assert (Hmain : main args w = Raised e1).
      { unfold main. rewrite Hips, Ha, Hn, Hg. reflexivity. }
      rewrite Hmain. apply load_gossip_data_raises in Hg as [Hg Hc]. split.
      * intros [= <-]. right. left. eauto.
      * intros [H|[(_ & H & _)|[H _]]].
        -- apply resolve_ips_raises in H. congruence.
        -- congruence.
        -- destruct H as (?&?&?&g'&_&_&_&_&_&_&Hg'&_).
           assert (load_gossip_data (solana_gossip w) = Raised e1) as Hr
             by (apply load_gossip_data_raises; auto).
           congruence.
  - assert (Hmain : main args w = Raised e0).
    { unfold main. rewrite Hips. reflexivity. }
    rewrite Hmain. pose proof (proj1 (resolve_ips_raises _ _ _) Hips) as Hr.
    split.
    + intros [= <-]. left. exact Hr.
    + intros [[_ H]|[([ips H] & _)|[H _]]].
      * destruct Hr as [_ Hr]. congruence.
      * discriminate.
      * destruct H as (?&?&?&?&?&_). congruence.
Qed.

(** [main_raises_only] on the sample with a [solana] that cannot be
    executed for the gossip command. *)
Lemma main_raises_only_witness :
  main with_geo
    {| ip_list_file := ip_list_file sample_world;
       ip_route := ip_route sample_world;
       solana_validators := solana_validators sample_world;
       solana_validator_info := solana_validator_info sample_world;
       solana_gossip := Raised OSError;
       ping := ping sample_world;
       ip_api := ip_api sample_world;
       output_file := output_file sample_world |}
  = Raised OSError.
Proof.
  apply (proj2 (main_raises_only with_geo _ OSError)).
  right. left. split; [|split; reflexivity].
  eexists. vm_compute. reflexivity.
Defined.

(** ** Failures stay in their columns *)

(** X17. What the probe answers reaches the Latency field of a row only, and
    what the geo service answers reaches the fields after it only: under
    other probe answers the first three fields of the row of an iteration
    and the fields after the fourth are the same, and under other geo
    answers the first four fields are the same. *)
Theorem failures_stay_in_their_columns
    (args : Args) (w : World)
    (ping' : nat → string → result (CompletedProcess string))
    (ip_api' : nat → string → result Response)
    (active : gset string) (names : gmap string string)
    (gossip : list (gmap string string)) (k : nat) (ip : string) :
  ∃ row row_ping row_geo,
    check_ip args w active names gossip k ip = Returned row
    ∧ check_ip args (with_probes w ping' (ip_api w) (output_file w))
        active names gossip k ip = Returned row_ping
    ∧ check_ip args (with_ip_api w ip_api') active names gossip k ip
      = Returned row_geo
    ∧ take 3 row_ping = take 3 row
    ∧ drop 4 row_ping = drop 4 row
    ∧ take 4 row_geo = take 4 row.
Proof.
  destruct (check_ip_row args w active names gossip k ip)
    as (l & c & y & Hping & Hgeo & ->).
  destruct (check_ip_row args (with_probes w ping' (ip_api w) (output_file w))
              active names gossip k ip)
    as (l1 & c1 & y1 & _ & Hgeo1 & ->).
  destruct (check_ip_row args (with_ip_api w ip_api') active names gossip k ip)
    as (l2 & c2 & y2 & Hping2 & _ & ->).
  simpl in Hgeo1, Hping2. rewrite Hgeo in Hgeo1. rewrite Hping in Hping2.
  injection Hgeo1 as <- <-. injection Hping2 as <-.
  eexists _, _, _. split; [reflexivity|]. split; [reflexivity|].
  split; [reflexivity|].
  destruct (no_geo args); repeat split; reflexivity.
Qed.
